(** * Kokoro-FastAPI: the rate limiter and its Redis connection manager

    A shallow embedding of [api/src/middleware/rate_limiter.py] and
    [api/src/core/redis_manager.py], with the properties the
    specification states about them.

    Conventions.
    - A Python [str] is a Rocq [string], one character per code point, for
      code points below 256 (addresses, dates and keys are ASCII); the two
      message texts of the rejections are kept as the bytes of the source
      file and never looked into. A Python [int] is a [Z].
    - [settings] (module [core.config], not among the sources) is a record
      handed to the code.
    - The Redis client is an interface ([RedisClient]): the limiter is
      written once against it, and run on a reference store that follows
      the counter-store contract, or on a store that fails on command.
    - [async] functions are run to completion one at a time; what they do
      to the outside (store commands, log lines, connection attempts) is
      kept in the state they thread. *)

From Stdlib Require Import ZArith Lia Ascii.
From stdpp Require Import base decidable option list gmap strings.

Local Open Scope Z_scope.

(** * Part I: the program *)

(** ** Python strings *)

Module PyStr.

(** The characters [str.strip()] removes, among code points below 256:
    TAB, LF, VT, FF, CR, FS, GS, RS, US, space, NEL and NBSP
    (the ones for which [str.isspace] holds). *)
Definition isspace (c : ascii) : bool :=
  match c with
  | "009" | "010" | "011" | "012" | "013"
  | "028" | "029" | "030" | "031" | " "
  | "133" | "160" => true
  | _ => false
  end%char.

(** [bool(s)] of a string: false exactly on the empty string. *)
Definition truthy (s : string) : bool :=
  match s with
  | EmptyString => false
  | String _ _ => true
  end.

Fixpoint lstrip (s : string) : string :=
  match s with
  | EmptyString => EmptyString
  | String c s' => if isspace c then lstrip s' else s
  end.

Fixpoint rstrip (s : string) : string :=
  match s with
  | EmptyString => EmptyString
  | String c s' =>
      let r := rstrip s' in
      if isspace c && negb (truthy r) then EmptyString else String c r
  end.

(** [s.strip()] *)
Definition strip (s : string) : string := rstrip (lstrip s).

End PyStr.

(** ** Configuration ([core.config.settings]) *)

Record Settings := {
  rate_limit_enabled : bool;
  rate_limit_whitelist : list string;
  rate_limit_requests_per_minute : Z;
  rate_limit_chars_per_day : Z;
}.

(** ** The limiter object *)

(** A connected Redis client, told apart by the order of construction. *)
Definition Handle := nat.

Record RateLimiter := {
  redis : option Handle;
  enabled : bool;
  whitelist : gset string;
  requests_per_minute : Z;
  chars_per_day : Z;
}.

(** [RateLimiter.__init__] *)
Definition RateLimiter_init (settings : Settings) (redis_client : option Handle)
  : RateLimiter :=
  {| redis := redis_client;
     enabled := rate_limit_enabled settings;
     whitelist :=
       list_to_set
         (PyStr.strip <$>
            filter (λ ip, PyStr.truthy (PyStr.strip ip) = true)
                   (rate_limit_whitelist settings));
     requests_per_minute := rate_limit_requests_per_minute settings;
     chars_per_day := rate_limit_chars_per_day settings |}.

(** [RateLimiter.is_whitelisted] *)
Definition is_whitelisted (self : RateLimiter) (ip : string) : bool :=
  bool_decide (ip ∈ whitelist self).

(** ** Exceptions, log lines, store commands *)

(** The [detail] dictionary of an [HTTPException]: its three keys. *)
Record Detail := {
  detail_error : string;
  detail_message : string;
  detail_type : string;
}.

Inductive Exception :=
| HTTPException (status_code : Z) (detail : Detail)
| AttributeError (what : string)
| RedisError (what : string).

(** One constructor per [logger] call of the limiter; the level is the
    method called, the fields are what the message interpolates. *)
Inductive LogRecord :=
| warn_redis_not_available
| warn_no_client_ip
| debug_whitelisted (client_ip : string)
| warn_minute_exceeded (client_ip : string) (minute_count limit : Z)
| warn_day_exceeded (client_ip : string) (day_count limit : Z)
| debug_counts (client_ip : string) (minute_count day_count : Z)
| error_redis (e : Exception).

Inductive Command :=
| Incr (key : string)
| IncrBy (key : string) (amount : Z)
| Expire (key : string) (seconds : Z).

(** A command sent to the store with what came back: an integer reply, or
    the message of the error the client raised. *)
Record Call := { command : Command; reply : string + Z }.

Definition failed (c : Call) : bool :=
  match reply c with inl _ => true | inr _ => false end.

(** The part of [redis.asyncio.Redis] the limiter calls. [S] is the state
    of whatever answers: server, network and clock. *)
Class RedisClient (S : Type) := {
  incr : string → S → (string + Z) * S;
  incrby : string → Z → S → (string + Z) * S;
  expire : string → Z → S → (string + Z) * S;
}.

(** ** The effect monad of an [async] method *)

Inductive Outcome (A : Type) :=
| Return (a : A)
| Raise (e : Exception).
Arguments Return {A} a.
Arguments Raise {A} e.

(** What one run leaves behind: how it ended, the store afterwards, the
    commands it sent and the lines it logged, both in order. *)
Record Result (S A : Type) := {
  outcome : Outcome A;
  store : S;
  issued : list Call;
  logged : list LogRecord;
}.
Arguments outcome {S A} r.
Arguments store {S A} r.
Arguments issued {S A} r.
Arguments logged {S A} r.

(** A computation reads the local date ([datetime.now()] formatted
    [%Y%m%d]) and threads the store. *)
Definition M (S A : Type) : Type := string → S → Result S A.

Section Monad.
Context {S : Type}.

Definition ret {A} (a : A) : M S A :=
  λ _ s, {| outcome := Return a; store := s; issued := []; logged := [] |}.

Definition raise {A} (e : Exception) : M S A :=
  λ _ s, {| outcome := Raise e; store := s; issued := []; logged := [] |}.

(** Each computation is run once and its result taken apart, so that a
    sequence stays as long as the code it stands for. *)
Definition bind {A B} (m : M S A) (k : A → M S B) : M S B :=
  λ today s,
    match m today s with
    | {| outcome := Return a; store := s1; issued := i1; logged := l1 |} =>
        match k a today s1 with
        | {| outcome := o; store := s2; issued := i2; logged := l2 |} =>
            {| outcome := o; store := s2;
               issued := i1 ++ i2; logged := l1 ++ l2 |}
        end
    | {| outcome := Raise e; store := s1; issued := i1; logged := l1 |} =>
        {| outcome := Raise e; store := s1; issued := i1; logged := l1 |}
    end.

(** [try: body except Exception as e: handler(e)] *)
Definition try_except {A} (body : M S A) (handler : Exception → M S A) : M S A :=
  λ today s,
    match body today s with
    | {| outcome := Return a; store := s1; issued := i1; logged := l1 |} =>
        {| outcome := Return a; store := s1; issued := i1; logged := l1 |}
    | {| outcome := Raise e; store := s1; issued := i1; logged := l1 |} =>
        match handler e today s1 with
        | {| outcome := o; store := s2; issued := i2; logged := l2 |} =>
            {| outcome := o; store := s2;
               issued := i1 ++ i2; logged := l1 ++ l2 |}
        end
    end.

Definition logger (l : LogRecord) : M S unit :=
  λ _ s, {| outcome := Return tt; store := s; issued := []; logged := [l] |}.

(** [datetime.now().strftime("%Y%m%d")] *)
Definition datetime_now_Ymd : M S string :=
  λ today s, {| outcome := Return today; store := s; issued := []; logged := [] |}.

(** A store command: the reply is returned, an error is raised as the
    client's exception; either way the command is on record. *)
Definition send (c : Command) (op : S → (string + Z) * S) : M S Z :=
  λ _ s,
    match op s with
    | (rep, s') =>
        {| outcome := match rep with
                      | inr n => Return n
                      | inl what => Raise (RedisError what)
                      end;
           store := s';
           issued := [{| command := c; reply := rep |}];
           logged := [] |}
    end.

End Monad.

Notation "x ← m ; k" := (bind m (λ x, k))
  (at level 20, m at level 100, k at level 200, only parsing, right associativity).
Notation "m ;; k" := (bind m (λ _, k))
  (at level 100, k at level 200, only parsing, right associativity).

(** ** Requests *)

(** What the limiter reads of a [fastapi.Request]: its [client], which
    Starlette declares as an address or [None], [None] when the server put
    no client in the connection scope (a Unix domain socket, a bare ASGI
    caller). *)
Record Address := { host : string; port : Z }.
Record Request := { client : option Address }.

(** [request.client.host]: attribute access on [None] raises. *)
Definition client_host {S} (request : Request) : M S string :=
  match client request with
  | Some a => ret (host a)
  | None => raise (AttributeError "'NoneType' object has no attribute 'host'")
  end.

(** ** [RateLimiter.check_rate_limit] *)

Definition minute_key (client_ip : string) : string :=
  "rate_limit:req:" +:+ client_ip +:+ ":minute".

Definition day_key (client_ip today : string) : string :=
  "rate_limit:chars:" +:+ client_ip +:+ ":" +:+ today.

(** What a rejection carries besides its message: the status code and the
    [error] and [type] entries of the detail. *)
Definition coded_fields (e : Exception) : option (Z * string * string) :=
  match e with
  | HTTPException status_code detail =>
      Some (status_code, detail_error detail, detail_type detail)
  | _ => None
  end.

Definition message_of (e : Exception) : option string :=
  match e with
  | HTTPException _ detail => Some (detail_message detail)
  | _ => None
  end.

(** The two rejections, as the source builds them. *)
Definition minute_limit_exceeded : Exception :=
  HTTPException 429
    {| detail_error := "rate_limit_exceeded";
       detail_message := "请求过于频繁，请稍后再试";
       detail_type := "rate_limit_error" |}.

Definition day_limit_exceeded : Exception :=
  HTTPException 429
    {| detail_error := "rate_limit_exceeded";
       detail_message := "今日额度已用完";
       detail_type := "rate_limit_error" |}.

Section Limiter.
Context {S : Type} `{RedisClient S}.

(** The body of the [try] block, for the address [client_ip]. *)
Definition limit_checks (self : RateLimiter) (client_ip : string)
    (text_length : Z) : M S bool :=
  let minute_key := minute_key client_ip in
  minute_count ← send (Incr minute_key) (incr minute_key);
  (if minute_count =? 1
   then send (Expire minute_key 60) (expire minute_key 60) ;; ret tt
   else ret tt) ;;
  if minute_count >? requests_per_minute self then
    logger (warn_minute_exceeded client_ip minute_count (requests_per_minute self)) ;;
    raise minute_limit_exceeded
  else
    today ← datetime_now_Ymd;
    let day_key := day_key client_ip today in
    day_count ← send (IncrBy day_key text_length) (incrby day_key text_length);
    (if day_count =? text_length
     then send (Expire day_key (25 * 3600)) (expire day_key (25 * 3600)) ;; ret tt
     else ret tt) ;;
    if day_count >? chars_per_day self then
      logger (warn_day_exceeded client_ip day_count (chars_per_day self)) ;;
      raise day_limit_exceeded
    else
      logger (debug_counts client_ip minute_count day_count) ;;
      ret true.

(** The two [except] clauses: an [HTTPException] is raised again, any
    other exception is logged and the request let through. *)
Definition on_exception (e : Exception) : M S bool :=
  match e with
  | HTTPException _ _ => raise e
  | _ => logger (error_redis e) ;; ret true
  end.

(** The [try] statement as a whole. *)
Definition guarded_checks (self : RateLimiter) (client_ip : string)
    (text_length : Z) : M S bool :=
  try_except (limit_checks self client_ip text_length) on_exception.

Definition check_rate_limit (self : RateLimiter) (request : Request)
    (text_length : Z) : M S bool :=
  if negb (enabled self) then ret true
  else
    match redis self with
    | None => logger warn_redis_not_available ;; ret true
    | Some _ =>
        client_ip ← client_host request;
        client_ip ← (if negb (PyStr.truthy client_ip)
                     then logger warn_no_client_ip ;; ret "unknown"
                     else ret client_ip);
        if is_whitelisted self client_ip then
          logger (debug_whitelisted client_ip) ;; ret true
        else
          guarded_checks self client_ip text_length
    end.

End Limiter.

(** The name a request is counted under: its client host, ["unknown"] for
    an empty one. *)
Definition identity (a : Address) : string :=
  if PyStr.truthy (host a) then host a else "unknown".

(** ** The counter store *)

(** Modelled from the spec: the Redis server behind the client, which is
    no part of the sources. After the counter-store contract: [INCR] and
    [INCRBY] add atomically and create an absent key at the amount added
    ([redis-py] sends [incr] as [INCRBY key 1]), [EXPIRE] puts a time to
    live on an existing key and does nothing on an absent one, and a key
    whose time has come is absent. *)
Module Redis.

Record Entry := { value : Z; expires_at : option Z }.

(** The keys and the server's clock, in seconds. *)
Record Server := { keys : gmap string Entry; clock : Z }.

Definition live (now : Z) (e : Entry) : bool :=
  match expires_at e with
  | None => true
  | Some t => now <? t
  end.

Definition get (k : string) (s : Server) : option Entry :=
  match keys s !! k with
  | Some e => if live (clock s) e then Some e else None
  | None => None
  end.

Definition INCRBY (k : string) (amount : Z) (s : Server) : (string + Z) * Server :=
  let e' := match get k s with
            | Some e => {| value := value e + amount; expires_at := expires_at e |}
            | None => {| value := amount; expires_at := None |}
            end in
  (inr (value e'), {| keys := <[k := e']> (keys s); clock := clock s |}).

Definition EXPIRE (k : string) (seconds : Z) (s : Server) : (string + Z) * Server :=
  match get k s with
  | Some e =>
      (inr 1,
       {| keys := <[k := {| value := value e;
                            expires_at := Some (clock s + seconds) |}]> (keys s);
          clock := clock s |})
  | None => (inr 0, s)
  end.

#[global] Instance redis_ops : RedisClient Server :=
  {| incr k := INCRBY k 1; incrby := INCRBY; expire := EXPIRE |}.

(** The clock moves between requests. *)
Definition at_time (t : Z) (s : Server) : Server :=
  {| keys := keys s; clock := t |}.

Definition empty : Server := {| keys := ∅; clock := 0 |}.

End Redis.

(** A store that fails on command: each command takes the next entry of a
    script; [true] makes it raise and leave the server alone, [false] (or a
    script that ran out) passes it on to the server. *)
Module Flaky.

Record Server := { script : list bool; inner : Redis.Server }.

Definition command (op : Redis.Server → (string + Z) * Redis.Server)
    (s : Server) : (string + Z) * Server :=
  match script s with
  | true :: rest =>
      (inl "Connection closed by server.", {| script := rest; inner := inner s |})
  | false :: rest =>
      let '(rep, i) := op (inner s) in (rep, {| script := rest; inner := i |})
  | [] =>
      let '(rep, i) := op (inner s) in (rep, {| script := []; inner := i |})
  end.

#[global] Instance flaky_ops : RedisClient Server :=
  {| incr k := command (Redis.INCRBY k 1);
     incrby k n := command (Redis.INCRBY k n);
     expire k n := command (Redis.EXPIRE k n) |}.

End Flaky.

(** The lines logged before the checks start. *)
Definition preamble (a : Address) : list LogRecord :=
  if PyStr.truthy (host a) then [] else [warn_no_client_ip].

(** A command of the minute check of [ip]. *)
Definition on_minute_key (ip : string) (c : Call) : Prop :=
  command c = Incr (minute_key ip) ∨ command c = Expire (minute_key ip) 60.

(** ** The ways through one call *)

Section Paths.
Context {S : Type} `{RedisClient S}.
Implicit Types (self : RateLimiter) (request : Request) (s : S).

(** The five ways through [check_rate_limit]. *)
Inductive Path self request text_length today s : Result S bool → Prop :=
| path_disabled :
    enabled self = false →
    Path self request text_length today s
      {| outcome := Return true; store := s; issued := []; logged := [] |}
| path_no_redis :
    enabled self = true → redis self = None →
    Path self request text_length today s
      {| outcome := Return true; store := s; issued := [];
         logged := [warn_redis_not_available] |}
| path_no_client h :
    enabled self = true → redis self = Some h → client request = None →
    Path self request text_length today s
      {| outcome := Raise (AttributeError "'NoneType' object has no attribute 'host'");
         store := s; issued := []; logged := [] |}
| path_whitelisted h a :
    enabled self = true → redis self = Some h → client request = Some a →
    is_whitelisted self (identity a) = true →
    Path self request text_length today s
      {| outcome := Return true; store := s; issued := [];
         logged := preamble a ++ [debug_whitelisted (identity a)] |}
| path_checked h a :
    enabled self = true → redis self = Some h → client request = Some a →
    is_whitelisted self (identity a) = false →
    let g := guarded_checks self (identity a) text_length today s in
    Path self request text_length today s
      {| outcome := outcome g; store := store g; issued := issued g;
         logged := preamble a ++ logged g |}.

End Paths.

(** ** The limiter on the counter store *)

Module OnRedis.
Import Redis.

(** The value a counter stands at; an absent or expired one counts 0. *)
Definition count (k : string) (s : Server) : Z :=
  match get k s with
  | Some e => value e
  | None => 0
  end.

(** The store after one counter was served: the amount added, and the
    time to live set when the reply equals the amount. *)
Definition touch (k : string) (amount ttl : Z) (s : Server) : Server :=
  let s1 := snd (INCRBY k amount s) in
  if count k s + amount =? amount then snd (EXPIRE k ttl s1) else s1.

(** The expiry a live counter carries. *)
Definition expiry (k : string) (s : Server) : option Z :=
  match get k s with
  | Some e => expires_at e
  | None => None
  end.

(** The same with both counters read before the call, and for
    [check_rate_limit] on a request that reaches the checks. *)
Definition decision (self : RateLimiter) (ip today : string) (text_length : Z)
    (s : Server) : Outcome bool :=
  if count (minute_key ip) s + 1 >? requests_per_minute self then
    Raise minute_limit_exceeded
  else if count (day_key ip today) s + text_length >? chars_per_day self then
    Raise day_limit_exceeded
  else Return true.

Definition served (self : RateLimiter) (ip today : string) (text_length : Z)
    (s : Server) : Server :=
  let s1 := touch (minute_key ip) 1 60 s in
  if count (minute_key ip) s + 1 >? requests_per_minute self then s1
  else touch (day_key ip today) text_length (25 * 3600) s1.

(** *** Requests one after another *)

(** A request as the limiter sees it arrive: the server time, the local
    date and the text length. *)
Record Arrival := { arrives : Z; date : string; units : Z }.

Fixpoint serve (self : RateLimiter) (request : Request)
    (arrivals : list Arrival) (s : Server) : list (Outcome bool) * Server :=
  match arrivals with
  | [] => ([], s)
  | x :: rest =>
      let r := check_rate_limit self request (units x) (date x)
                 (at_time (arrives x) s) in
      let '(outs, s') := serve self request rest (store r) in
      (outcome r :: outs, s')
  end.

Definition total_units (arrivals : list Arrival) : Z :=
  foldr (λ x acc, units x + acc) 0 arrivals.

(** All arrivals fall in the minute that the first one opens. *)
Definition same_window (arrivals : list Arrival) : Prop :=
  match arrivals with
  | [] => True
  | x :: rest => Forall (λ y, arrives x ≤ arrives y < arrives x + 60) rest
  end.

(** The minute counter of [a] stands at [j] and runs out a minute after
    [t0]. *)
Definition minute_is (a : Address) (t0 j : Z) (s : Server) : Prop :=
  keys s !! minute_key (identity a)
  = Some {| value := j; expires_at := Some (t0 + 60) |}.

(** No day counter of [a] is above [U]. *)
Definition day_below (a : Address) (U : Z) (s : Server) : Prop :=
  ∀ d e, keys s !! day_key (identity a) d = Some e → value e ≤ U.

End OnRedis.

(** ** The connection manager and the limiter singleton *)

Module Process.

(** What a connection attempt meets: whether [redis.Redis(...)] returns a
    client and whether the server answers its [ping()]. *)
Record Network := { constructs : bool; answers_ping : bool }.

Inductive Event :=
| Constructed (h : Handle)
| Pinged (h : Handle) (answered : bool)
| Closed (h : Handle).

Inductive LogLine :=
| info_redis_connected
| error_failed_to_connect
| info_redis_closed.

(** The module globals: [RedisManager._redis_client] of the one manager
    instance and [_rate_limiter]; with them the clients built so far,
    what went over the network and what was logged. *)
Record State := {
  _redis_client : option Handle;
  _rate_limiter : option RateLimiter;
  built : nat;
  events : list Event;
  log : list LogLine;
}.

Definition initial : State :=
  {| _redis_client := None; _rate_limiter := None;
     built := 0; events := []; log := [] |}.

(** [RedisManager.get_client] *)
Definition get_client (net : Network) (p : State) : option Handle * State :=
  match _redis_client p with
  | Some h => (Some h, p)
  | None =>
      if constructs net then
        let h := built p in
        if answers_ping net then
          (Some h,
           {| _redis_client := Some h; _rate_limiter := _rate_limiter p;
              built := Datatypes.S h;
              events := events p ++ [Constructed h; Pinged h true];
              log := log p ++ [info_redis_connected] |})
        else
          (None,
           {| _redis_client := None; _rate_limiter := _rate_limiter p;
              built := Datatypes.S h;
              events := events p ++ [Constructed h; Pinged h false];
              log := log p ++ [error_failed_to_connect] |})
      else
        (None,
         {| _redis_client := None; _rate_limiter := _rate_limiter p;
            built := built p; events := events p;
            log := log p ++ [error_failed_to_connect] |})
  end.

(** [RedisManager.close] *)
Definition close (p : State) : State :=
  match _redis_client p with
  | Some h =>
      {| _redis_client := None; _rate_limiter := _rate_limiter p;
         built := built p; events := events p ++ [Closed h];
         log := log p ++ [info_redis_closed] |}
  | None => p
  end.

(** [get_redis] *)
Definition get_redis (net : Network) (p : State) : option Handle * State :=
  get_client net p.

(** [get_rate_limiter] *)
Definition get_rate_limiter (settings : Settings) (net : Network) (p : State)
  : RateLimiter * State :=
  match _rate_limiter p with
  | Some limiter => (limiter, p)
  | None =>
      let '(redis_client, p1) := get_redis net p in
      let limiter := RateLimiter_init settings redis_client in
      (limiter,
       {| _redis_client := _redis_client p1; _rate_limiter := Some limiter;
          built := built p1; events := events p1; log := log p1 |})
  end.

Definition reachable : Network := {| constructs := true; answers_ping := true |}.
Definition unreachable : Network := {| constructs := true; answers_ping := false |}.

End Process.

(** ** Sample data *)

Module Sample.

Definition settings : Settings :=
  {| rate_limit_enabled := true;
     rate_limit_whitelist := [" 10.0.0.1 "; "   "; "192.168.1.7"];
     rate_limit_requests_per_minute := 5;
     rate_limit_chars_per_day := 1000 |}.

Definition limiter : RateLimiter := RateLimiter_init settings (Some 0%nat).

(** The same limiter with other ceilings. *)
Definition limiter_with (per_minute per_day : Z) : RateLimiter :=
  RateLimiter_init
    {| rate_limit_enabled := true;
       rate_limit_whitelist := rate_limit_whitelist settings;
       rate_limit_requests_per_minute := per_minute;
       rate_limit_chars_per_day := per_day |}
    (Some 0%nat).

Definition request : Request :=
  {| client := Some {| host := "203.0.113.9"; port := 51234 |} |}.

Definition listed_request : Request :=
  {| client := Some {| host := "10.0.0.1"; port := 51234 |} |}.

Definition no_client : Request := {| client := None |}.

Definition today : string := "20240518".

End Sample.

(** ** [main.py]: what the application does with the manager and the limiter *)

Module Main.

(** [await client.close()] inside [RedisManager.close] may itself raise;
    the line that forgets the client is then not reached. [closes = true]
    is [Process.close]. *)
Definition manager_close (closes : bool) (p : Process.State) : bool * Process.State :=
match Process._redis_client p with
| Some h =>
    if closes then (true, Process.close p)
    else (false, p)
| None => (true, p)
end.

(** A [ping()] sent on a client the caller holds. *)
Definition record_ping (h : Handle) (answered : bool) (p : Process.State)
  : Process.State :=
{| Process._redis_client := Process._redis_client p;
   Process._rate_limiter := Process._rate_limiter p;
   Process.built := Process.built p;
   Process.events := Process.events p ++ [Process.Pinged h answered];
   Process.log := Process.log p |}.

(** The lines [main.py] logs in the functions below. *)
Inductive LogLine :=
| info_initializing_redis
| info_redis_connected_successfully
| warn_redis_not_available
| warn_failed_to_connect_redis
| info_rate_limiter_initialized
| info_loading_model
| error_failed_to_initialize_model
| info_startup_message
| info_shutting_down
| info_redis_connection_closed
| error_closing_redis
| info_temp_files_cleaned
| error_cleaning_temp_files
| warn_redis_health_check_failed
| warn_tts_health_check_failed.

(** *** [health_check] *)

(** The dictionary the endpoint returns. *)
Record Health := { status : string; services : gmap string string }.

(** What a health check meets: the network for the acquisition, whether the
    client answers the ping the endpoint sends itself, and whether the
    import of the TTS service module goes through. *)
Record HealthEnv := {
  health_net : Process.Network;
  health_ping : bool;
  tts_imports : bool;
}.

Definition health_check (env : HealthEnv) (p : Process.State)
  : Health * Process.State * list LogLine :=
let health_status := {| status := "healthy"; services := ∅ |} in
let '(redis_client, p1) := Process.get_client (health_net env) p in
let '(health_status, p2, l1) :=
  match redis_client with
  | Some h =>
      if health_ping env then
        ({| status := status health_status;
            services := <["redis" := "connected"]> (services health_status) |},
         record_ping h true p1, [])
      else
        ({| status := "degraded";
            services := <["redis" := "error"]> (services health_status) |},
         record_ping h false p1, [warn_redis_health_check_failed])
  | None =>
      ({| status := status health_status;
          services := <["redis" := "not_available"]> (services health_status) |},
       p1, [])
  end in
if tts_imports env then
  ({| status := status health_status;
      services := <["tts" := "available"]> (services health_status) |}, p2, l1)
else
  ({| status := "unhealthy";
      services := <["tts" := "error"]> (services health_status) |},
   p2, l1 ++ [warn_tts_health_check_failed]).

(** *** [rate_limit_info] *)

Record Info := {
  info_enabled : bool;
  info_requests_per_minute : Z;
  info_chars_per_day : Z;
  info_whitelist : list string;
  info_redis_available : bool;
}.

Definition rate_limit_info (settings : Settings) (net : Process.Network)
    (p : Process.State) : Info * Process.State :=
let '(rate_limiter, p1) := Process.get_rate_limiter settings net p in
({| info_enabled := rate_limit_enabled settings;
    info_requests_per_minute := rate_limit_requests_per_minute settings;
    info_chars_per_day := rate_limit_chars_per_day settings;
    info_whitelist := rate_limit_whitelist settings;
    info_redis_available :=
      match redis rate_limiter with Some _ => true | None => false end |},
 p1).

(** *** [lifespan] *)

(** What a start meets. [before_redis_raises]: one of the imports or the
    first [cleanup_temp_files()] raises, which ends the start before Redis
    is touched. [model_raises]: loading the model raises, which ends it
    after the limiter was set up. The networks are the ones met by the
    [get_client] of [lifespan] and by the one inside [get_rate_limiter]. *)
Record StartEnv := {
  before_redis_raises : bool;
  start_net : Process.Network;
  start_ping : bool;
  limiter_net : Process.Network;
  model_raises : bool;
}.

(** [lifespan] up to its [yield]: [true] when the application runs,
    [false] when the start raised. *)
Definition startup (settings : Settings) (env : StartEnv) (p : Process.State)
  : bool * Process.State * list LogLine :=
if before_redis_raises env then (false, p, [])
else
  let '(redis_client, p1) := Process.get_client (start_net env) p in
  let '(p2, l1) :=
    match redis_client with
    | Some h =>
        if start_ping env
        then (record_ping h true p1, [info_redis_connected_successfully])
        else (record_ping h false p1, [warn_failed_to_connect_redis])
    | None => (p1, [warn_redis_not_available])
    end in
  let '(rate_limiter, p3) := Process.get_rate_limiter settings (limiter_net env) p2 in
  let l2 := [info_initializing_redis] ++ l1
              ++ [info_rate_limiter_initialized; info_loading_model] in
  if model_raises env
  then (false, p3, l2 ++ [error_failed_to_initialize_model])
  else (true, p3, l2 ++ [info_startup_message]).

(** [lifespan] after its [yield]; neither [try] lets anything out. *)
Definition shutdown (closes cleanup_ok : bool) (p : Process.State)
  : Process.State * list LogLine :=
let '(closed, p1) := manager_close closes p in
(p1,
 [info_shutting_down]
   ++ (if closed then [info_redis_connection_closed] else [error_closing_redis])
   ++ (if cleanup_ok then [info_temp_files_cleaned] else [error_cleaning_temp_files])).

End Main.

(** ** The life of the process: operations in any order *)

Module Service.

Inductive Op :=
| GetClient (net : Process.Network)
| Close (closes : bool)
| GetRateLimiter (settings : Settings) (net : Process.Network)
| HealthCheck (env : Main.HealthEnv)
| RateLimitInfo (settings : Settings) (net : Process.Network).

Definition step (p : Process.State) (o : Op) : Process.State :=
match o with
| GetClient net => snd (Process.get_client net p)
| Close closes => snd (Main.manager_close closes p)
| GetRateLimiter settings net => snd (Process.get_rate_limiter settings net p)
| HealthCheck env => snd (fst (Main.health_check env p))
| RateLimitInfo settings net => snd (Main.rate_limit_info settings net p)
end.

Definition run (ops : list Op) (p : Process.State) : Process.State :=
foldl step p ops.

(** The clients that answered a ping and were not closed since, read off
    the events. *)
Fixpoint open_clients (events : list Process.Event) (acc : list Handle)
  : list Handle :=
match events with
| [] => acc
| Process.Pinged h true :: rest =>
    open_clients rest (if bool_decide (h ∈ acc) then acc else acc ++ [h])
| Process.Closed h :: rest =>
    open_clients rest (filter (λ h', h' ≠ h) acc)
| _ :: rest => open_clients rest acc
end.


(** The handle kept was built, and the clients open are the one kept. *)
Definition well_formed (p : Process.State) : Prop :=
(∀ h, Process._redis_client p = Some h → (h < Process.built p)%nat)
∧ open_clients (Process.events p) [] = option_list (Process._redis_client p).

End Service.

(** * Part II: what holds of it *)

(** ** Facts about stripping *)

Module PyStrFacts.
Import PyStr.

Lemma truthy_true s : truthy s = true ↔ s ≠ "".
Proof. destruct s; simpl; split; intros; congruence. Qed.

Lemma truthy_false s : truthy s = false ↔ s = "".
Proof. destruct s; simpl; split; intros; congruence. Qed.

Lemma lstrip_rstrip s : lstrip (rstrip s) = rstrip (lstrip s).
Proof.
  induction s as [|c s IH]; [reflexivity|].
  cbn [rstrip lstrip]. destruct (isspace c) eqn:Hc; cbn [andb].
  - destruct (truthy (rstrip s)) eqn:Hr; cbn [negb].
    + cbn [lstrip]. now rewrite Hc.
    + apply truthy_false in Hr. rewrite <- IH, Hr. reflexivity.
  - cbn [lstrip rstrip]. rewrite Hc. reflexivity.
Qed.

Lemma lstrip_idem s : lstrip (lstrip s) = lstrip s.
Proof.
  induction s as [|c s IH]; [reflexivity|].
  cbn [lstrip]. destruct (isspace c) eqn:Hc; [exact IH|].
  cbn [lstrip]. now rewrite Hc.
Qed.

Lemma rstrip_idem s : rstrip (rstrip s) = rstrip s.
Proof.
  induction s as [|c s IH]; [reflexivity|].
  cbn [rstrip].
  destruct (isspace c && negb (truthy (rstrip s))) eqn:Hc; [reflexivity|].
  cbn [rstrip]. rewrite IH, Hc. reflexivity.
Qed.

Lemma strip_idem s : strip (strip s) = strip s.
Proof.
  unfold strip.
  rewrite (lstrip_rstrip (lstrip s)), lstrip_idem.
  apply rstrip_idem.
Qed.

End PyStrFacts.

(** ** The whitelist as built *)

Lemma is_whitelisted_init settings r ip :
  is_whitelisted (RateLimiter_init settings r) ip = true ↔
  ∃ entry, entry ∈ rate_limit_whitelist settings
           ∧ PyStr.strip entry ≠ "" ∧ ip = PyStr.strip entry.
Proof.
  unfold is_whitelisted. rewrite bool_decide_eq_true. cbn [RateLimiter_init whitelist].
  rewrite elem_of_list_to_set, list_elem_of_fmap.
  split.
  - intros (e & -> & He). apply list_elem_of_filter in He as [Ht He].
    exists e. split; [exact He|]. split; [|reflexivity].
    now apply PyStrFacts.truthy_true.
  - intros (e & He & Hne & ->). exists e. split; [reflexivity|].
    apply list_elem_of_filter. split; [|exact He].
    now apply PyStrFacts.truthy_true.
Qed.

(** ** Running the limiter: every path of one call *)

Lemma on_exception_minute {S} today (s : S) :
  on_exception minute_limit_exceeded today s
  = {| outcome := Raise minute_limit_exceeded; store := s;
       issued := []; logged := [] |}.
Proof. reflexivity. Qed.

Lemma on_exception_day {S} today (s : S) :
  on_exception day_limit_exceeded today s
  = {| outcome := Raise day_limit_exceeded; store := s;
       issued := []; logged := [] |}.
Proof. reflexivity. Qed.

Lemma on_exception_redis {S} what today (s : S) :
  on_exception (RedisError what) today s
  = {| outcome := Return true; store := s; issued := [];
       logged := [error_redis (RedisError what)] |}.
Proof. reflexivity. Qed.

(** [open_monad] opens the monad; [follow_code] then follows the code, a
    case per reply of each store command and per comparison. *)
Ltac open_monad :=
  cbv [check_rate_limit guarded_checks limit_checks client_host
       bind try_except send ret raise logger datetime_now_Ymd];
  cbn [outcome store issued logged app negb].

Ltac follow_code :=
  repeat (first
    [ match goal with
      | |- context [incr ?k ?s] =>
          destruct (incr k s) as [[?|?] ?] eqn:?
      | |- context [incrby ?k ?n ?s] =>
          destruct (incrby k n s) as [[?|?] ?] eqn:?
      | |- context [expire ?k ?n ?s] =>
          destruct (expire k n s) as [[?|?] ?] eqn:?
      | |- context [Z.eqb ?a ?b] => destruct (Z.eqb_spec a b)
      | |- context [Z.gtb ?a ?b] => destruct (Z.gtb_spec a b)
      end
    | rewrite on_exception_minute
    | rewrite on_exception_day
    | rewrite on_exception_redis
    | progress cbn [outcome store issued logged app negb] ]).

Section OneCall.
Context {S : Type} `{RedisClient S}.
Implicit Types (self : RateLimiter) (request : Request) (s : S).

(** *** The guards before the [try] *)

Lemma check_disabled self request text_length today s :
  enabled self = false →
  check_rate_limit self request text_length today s
  = {| outcome := Return true; store := s; issued := []; logged := [] |}.
Proof. intros E. open_monad. now rewrite E. Qed.

Lemma check_no_redis self request text_length today s :
  enabled self = true → redis self = None →
  check_rate_limit self request text_length today s
  = {| outcome := Return true; store := s; issued := [];
       logged := [warn_redis_not_available] |}.
Proof. intros E R. open_monad. now rewrite E, R. Qed.

Lemma check_no_client self request text_length today s h :
  enabled self = true → redis self = Some h → client request = None →
  check_rate_limit self request text_length today s
  = {| outcome := Raise (AttributeError "'NoneType' object has no attribute 'host'");
       store := s; issued := []; logged := [] |}.
Proof. intros E R C. open_monad. now rewrite E, R, C. Qed.

Lemma check_whitelisted self request text_length today s h a :
  enabled self = true → redis self = Some h → client request = Some a →
  is_whitelisted self (identity a) = true →
  check_rate_limit self request text_length today s
  = {| outcome := Return true; store := s; issued := [];
       logged := preamble a ++ [debug_whitelisted (identity a)] |}.
Proof.
  intros E R C W. unfold identity, preamble in *. open_monad.
  rewrite E, R, C. cbn.
  destruct (PyStr.truthy (host a)); cbn; now rewrite W.
Qed.

Lemma check_guarded self request text_length today s h a :
  enabled self = true → redis self = Some h → client request = Some a →
  is_whitelisted self (identity a) = false →
  let g := guarded_checks self (identity a) text_length today s in
  check_rate_limit self request text_length today s
  = {| outcome := outcome g; store := store g; issued := issued g;
       logged := preamble a ++ logged g |}.
Proof.
  intros E R C W. unfold identity, preamble in *.
  cbv [check_rate_limit client_host bind ret logger]. rewrite E, R, C. cbn.
  destruct (PyStr.truthy (host a)); cbn; rewrite W; cbn;
    match goal with |- context [guarded_checks ?x ?i ?n ?t ?s] =>
      destruct (guarded_checks x i n t s) end; reflexivity.
Qed.

(** *** The [try] statement *)

Lemma guarded_outcomes self ip text_length today s :
  let g := guarded_checks self ip text_length today s in
  outcome g = Return true
  ∨ outcome g = Raise minute_limit_exceeded
  ∨ outcome g = Raise day_limit_exceeded.
Proof. cbv zeta. open_monad. follow_code; auto. Qed.

(** A command that fails is the last one sent; the call logs the error
    and lets the request through. *)
Lemma guarded_failure self ip text_length today s c :
  let g := guarded_checks self ip text_length today s in
  c ∈ issued g → failed c = true →
  outcome g = Return true
  ∧ ∃ sent what, issued g = sent ++ [c] ∧ reply c = inl what
      ∧ logged g = [error_redis (RedisError what)].
Proof.
  cbv zeta. open_monad. follow_code; intros Hc Hf;
    repeat (apply elem_of_cons in Hc as [->|Hc]); try (by inversion Hc);
    cbn in Hf; try discriminate; (split; [reflexivity|]).
  all: first
    [ by eexists [], _
    | by eexists [_], _
    | by eexists [_; _], _
    | by eexists [_; _; _], _ ].
Qed.

End OneCall.

(** ** Keys and rejections are told apart *)

Lemma minute_key_not_day_key ip ip' today : minute_key ip ≠ day_key ip' today.
Proof.
  intros E. apply (f_equal (String.get 11)) in E.
  vm_compute in E. discriminate E.
Qed.

Lemma rejections_differ : minute_limit_exceeded ≠ day_limit_exceeded.
Proof. unfold minute_limit_exceeded, day_limit_exceeded. intros E. discriminate E. Qed.

(** ** Rejections and paths *)

Section Rejections.
Context {S : Type} `{RedisClient S}.
Implicit Types (self : RateLimiter) (request : Request) (s : S).

Lemma guarded_minute_denied self ip text_length today s :
  let g := guarded_checks self ip text_length today s in
  outcome g = Raise minute_limit_exceeded →
  Forall (on_minute_key ip) (issued g)
  ∧ ∃ n, requests_per_minute self < n
         ∧ logged g = [warn_minute_exceeded ip n (requests_per_minute self)].
Proof.
  cbv zeta. unfold on_minute_key. open_monad. follow_code; intros Ho;
    try discriminate Ho;
    try (exfalso; apply rejections_differ; congruence);
    (split; [|eauto]);
    repeat (apply List.Forall_cons; [first [by left | by right]|]);
    apply List.Forall_nil.
Qed.

Lemma guarded_day_denied self ip text_length today s :
  let g := guarded_checks self ip text_length today s in
  outcome g = Raise day_limit_exceeded →
  ∃ n, chars_per_day self < n
       ∧ logged g = [warn_day_exceeded ip n (chars_per_day self)]
       ∧ {| command := IncrBy (day_key ip today) text_length; reply := inr n |}
           ∈ issued g.
Proof.
  cbv zeta. open_monad. follow_code; intros Ho;
    try discriminate Ho;
    try (exfalso; apply rejections_differ; congruence);
    eexists; (split; [eassumption|]); (split; [reflexivity|]);
    repeat first [ by apply list_elem_of_here | apply list_elem_of_further ].
Qed.

Lemma check_rate_limit_path self request text_length today s :
  Path self request text_length today s
    (check_rate_limit self request text_length today s).
Proof.
  destruct (enabled self) eqn:E.
  2: { rewrite check_disabled by exact E. now apply path_disabled. }
  destruct (redis self) as [h|] eqn:R.
  2: { rewrite check_no_redis by assumption. now apply path_no_redis. }
  destruct (client request) as [a|] eqn:C.
  2: { rewrite (check_no_client _ _ _ _ _ h) by assumption.
       now apply (path_no_client _ _ _ _ _ h). }
  destruct (is_whitelisted self (identity a)) eqn:W.
  - rewrite (check_whitelisted _ _ _ _ _ h a) by assumption.
    now apply (path_whitelisted _ _ _ _ _ h a).
  - rewrite (check_guarded _ _ _ _ _ h a) by assumption.
    now apply (path_checked _ _ _ _ _ h a).
Qed.

(** Whatever fails in the store, the request is let through and the
    error logged; an unavailable store is logged as a warning. *)
Lemma store_errors_absorbed self request text_length today s :
  let r := check_rate_limit self request text_length today s in
  (enabled self = true → redis self = None →
     outcome r = Return true ∧ logged r = [warn_redis_not_available])
  ∧ (∀ c, c ∈ issued r → failed c = true →
       outcome r = Return true
       ∧ ∃ what, reply c = inl what
                 ∧ last (logged r) = Some (error_redis (RedisError what)))
  ∧ (∀ what, outcome r ≠ Raise (RedisError what)).
Proof.
  cbv zeta. destruct (check_rate_limit_path self request text_length today s)
    as [E|E R|h E R C|h a E R C W|h a E R C W g]; cbn [outcome issued logged].
  1-4: split; [intros; first [congruence | by split]|];
       (split; [intros c Hc; inversion Hc | intros what Ho; discriminate Ho]).
  split; [congruence|]. split.
  - intros c Hc Hf.
      destruct (guarded_failure self (identity a) text_length today s c Hc Hf)
        as (Ho & sent & what & _ & Hr & Hl).
      split; [exact Ho|]. exists what. split; [exact Hr|].
      fold g in Hl. rewrite Hl. now rewrite last_snoc.
  - intros what Ho.
      destruct (guarded_outcomes self (identity a) text_length today s)
        as [G|[G|G]]; fold g in G; rewrite G in Ho; discriminate Ho.
Qed.

(** How a call can end. *)
Lemma check_rate_limit_outcomes self request text_length today s :
  let r := check_rate_limit self request text_length today s in
  outcome r = Return true
  ∨ outcome r = Raise minute_limit_exceeded
  ∨ outcome r = Raise day_limit_exceeded
  ∨ (client request = None ∧ ∃ what, outcome r = Raise (AttributeError what)).
Proof.
  cbv zeta. destruct (check_rate_limit_path self request text_length today s)
    as [E|E R|h E R C|h a E R C W|h a E R C W g]; cbn [outcome]; eauto 6.
  destruct (guarded_outcomes self (identity a) text_length today s)
    as [G|[G|G]]; fold g in G; auto.
Qed.

(** A boolean result is [True]. *)
Lemma never_returns_False self request text_length today s :
  outcome (check_rate_limit self request text_length today s) ≠ Return false.
Proof.
  destruct (check_rate_limit_outcomes self request text_length today s)
    as [G|[G|[G|(_ & ? & G)]]]; rewrite G; discriminate.
Qed.

End Rejections.

(** The store drops the connection on the second command, the [EXPIRE] of a
    fresh minute counter: the request is let through, the day counter is
    never reached. *)
Example flaky_store_lets_through :
  let s := {| Flaky.script := [false; true]; Flaky.inner := Redis.empty |} in
  let r := check_rate_limit Sample.limiter Sample.request 50 Sample.today s in
  outcome r = Return true
  ∧ logged r = [error_redis (RedisError "Connection closed by server.")]
  ∧ command <$> issued r
    = [Incr (minute_key "203.0.113.9"); Expire (minute_key "203.0.113.9") 60]
  ∧ failed <$> issued r = [false; true].
Proof. vm_compute. repeat split. Qed.

(** ** Facts about the limiter on the counter store *)

Module OnRedisFacts.
Import Redis OnRedis.

Lemma INCRBY_reply k amount s : fst (INCRBY k amount s) = inr (count k s + amount).
Proof. unfold INCRBY, count. destruct (get k s); reflexivity. Qed.

Lemma get_INCRBY k amount s :
  get k (snd (INCRBY k amount s))
  = Some {| value := count k s + amount;
            expires_at := match get k s with
                          | Some e => expires_at e
                          | None => None
                          end |}.
Proof.
  unfold INCRBY, count, get at 1. cbn [snd keys clock].
  rewrite lookup_insert_eq.
  assert (Hl : ∀ e, get k s = Some e → live (clock s) e = true).
  { intros e. unfold get. destruct (keys s !! k) as [e'|]; [|discriminate].
    destruct (live (clock s) e') eqn:L; [|discriminate]. now intros [= <-]. }
  destruct (get k s) as [e|] eqn:G; [|reflexivity].
  specialize (Hl e eq_refl). unfold live in *. cbn [expires_at value].
  now rewrite Hl.
Qed.

Lemma clock_touch k amount ttl s : clock (touch k amount ttl s) = clock s.
Proof.
  unfold touch, Redis.EXPIRE, Redis.INCRBY. cbn [snd].
  destruct (_ =? _); [|reflexivity].
  match goal with |- context [get ?k ?s] => destruct (get k s) end; reflexivity.
Qed.

Lemma keys_touch k amount ttl s :
  keys (touch k amount ttl s)
  = <[k := {| value := count k s + amount;
              expires_at := if count k s + amount =? amount
                            then Some (clock s + ttl) else expiry k s |}]> (keys s).
Proof.
  unfold touch. destruct (count k s + amount =? amount).
  - unfold Redis.EXPIRE. rewrite get_INCRBY. cbn [snd keys value clock].
    unfold Redis.INCRBY. cbn [snd keys clock]. now rewrite insert_insert_eq.
  - unfold Redis.INCRBY, count, expiry. cbn [snd keys].
    destruct (get k s); reflexivity.
Qed.

Lemma keys_touch_other k k' amount ttl s :
  k ≠ k' → keys (touch k amount ttl s) !! k' = keys s !! k'.
Proof. intros. rewrite keys_touch. now apply lookup_insert_ne. Qed.

Lemma get_touch_other k k' amount ttl s :
  k ≠ k' → get k' (touch k amount ttl s) = get k' s.
Proof.
  intros. unfold get. now rewrite keys_touch_other, clock_touch.
Qed.

Lemma count_touch_other k k' amount ttl s :
  k ≠ k' → count k' (touch k amount ttl s) = count k' s.
Proof. intros. unfold count. now rewrite get_touch_other. Qed.

Lemma send_incr k today (s : Server) :
  send (Incr k) (incr k) today s
  = {| outcome := Return (count k s + 1); store := snd (Redis.INCRBY k 1 s);
       issued := [{| command := Incr k; reply := inr (count k s + 1) |}];
       logged := [] |}.
Proof.
  unfold send. cbn [incr redis_ops].
  pose proof (INCRBY_reply k 1 s) as R.
  destruct (Redis.INCRBY k 1 s) as [rep s1]. cbn [fst snd] in *. now subst rep.
Qed.

Lemma send_incrby k amount today (s : Server) :
  send (IncrBy k amount) (incrby k amount) today s
  = {| outcome := Return (count k s + amount);
       store := snd (Redis.INCRBY k amount s);
       issued := [{| command := IncrBy k amount; reply := inr (count k s + amount) |}];
       logged := [] |}.
Proof.
  unfold send. cbn [incrby redis_ops].
  pose proof (INCRBY_reply k amount s) as R.
  destruct (Redis.INCRBY k amount s) as [rep s1]. cbn [fst snd] in *. now subst rep.
Qed.

Lemma send_expire k ttl today (s : Server) :
  ∃ n, send (Expire k ttl) (expire k ttl) today s
       = {| outcome := Return n; store := snd (Redis.EXPIRE k ttl s);
            issued := [{| command := Expire k ttl; reply := inr n |}];
            logged := [] |}.
Proof.
  unfold send. cbn [expire redis_ops]. unfold Redis.EXPIRE.
  destruct (get k s); cbn [snd]; eauto.
Qed.

(** One run of the [try] statement, read off the two counters. *)
Lemma guarded_run self ip text_length today (s : Server) :
  let g := guarded_checks self ip text_length today s in
  let s1 := touch (minute_key ip) 1 60 s in
  let s2 := touch (day_key ip today) text_length (25 * 3600) s1 in
  if count (minute_key ip) s + 1 >? requests_per_minute self then
    outcome g = Raise minute_limit_exceeded ∧ store g = s1
  else if count (day_key ip today) s1 + text_length >? chars_per_day self then
    outcome g = Raise day_limit_exceeded ∧ store g = s2
  else
    outcome g = Return true ∧ store g = s2.
Proof.
  cbv zeta. unfold touch.
  cbv [guarded_checks limit_checks try_except bind].
  rewrite send_incr. cbn [outcome store issued logged].
  set (s0 := snd (Redis.INCRBY (minute_key ip) 1 s)).
  destruct (count (minute_key ip) s + 1 =? 1).
  - destruct (send_expire (minute_key ip) 60 today s0) as [n ->].
    cbn [outcome store issued logged ret].
    set (s1 := snd (Redis.EXPIRE (minute_key ip) 60 s0)).
    destruct (count (minute_key ip) s + 1 >? requests_per_minute self).
    + cbn. done.
    + cbv [datetime_now_Ymd]. cbn [outcome store issued logged].
      rewrite send_incrby. cbn [outcome store issued logged].
      destruct (count (day_key ip today) s1 + text_length =? text_length).
      * destruct (send_expire (day_key ip today) (25 * 3600) today
                    (snd (Redis.INCRBY (day_key ip today) text_length s1))) as [n' ->].
        cbn [outcome store issued logged ret].
        destruct (count (day_key ip today) s1 + text_length >? chars_per_day self);
          cbn; done.
      * cbn [outcome store issued logged ret].
        destruct (count (day_key ip today) s1 + text_length >? chars_per_day self);
          cbn; done.
  - cbn [outcome store issued logged ret].
    destruct (count (minute_key ip) s + 1 >? requests_per_minute self).
    + cbn. done.
    + cbv [datetime_now_Ymd]. cbn [outcome store issued logged].
      rewrite send_incrby. cbn [outcome store issued logged].
      destruct (count (day_key ip today) s0 + text_length =? text_length).
      * destruct (send_expire (day_key ip today) (25 * 3600) today
                    (snd (Redis.INCRBY (day_key ip today) text_length s0))) as [n' ->].
        cbn [outcome store issued logged ret].
        destruct (count (day_key ip today) s0 + text_length >? chars_per_day self);
          cbn; done.
      * cbn [outcome store issued logged ret].
        destruct (count (day_key ip today) s0 + text_length >? chars_per_day self);
          cbn; done.
Qed.

Lemma check_run self request a h text_length today (s : Server) :
  enabled self = true → redis self = Some h → client request = Some a →
  is_whitelisted self (identity a) = false →
  let r := check_rate_limit self request text_length today s in
  outcome r = decision self (identity a) today text_length s
  ∧ store r = served self (identity a) today text_length s.
Proof.
  intros E R C W. cbv zeta.
  rewrite (check_guarded self request text_length today s h a E R C W).
  cbn [outcome store]. unfold decision, served.
  pose proof (guarded_run self (identity a) text_length today s) as G.
  cbv zeta in G.
  rewrite count_touch_other in G by apply minute_key_not_day_key.
  destruct (_ >? requests_per_minute self); [exact G|].
  destruct (_ >? chars_per_day self); exact G.
Qed.

Lemma expiry_touch_other k k' amount ttl s :
  k ≠ k' → expiry k' (touch k amount ttl s) = expiry k' s.
Proof. intros. unfold expiry. now rewrite get_touch_other. Qed.

(** The day counter after a call that passed the minute check: the text
    length is added, and the 25 hours are set exactly when the counter
    stood at 0 before, absent or not. *)
Lemma day_counter_after self request a h text_length today (s : Server) :
  enabled self = true → redis self = Some h → client request = Some a →
  is_whitelisted self (identity a) = false →
  count (minute_key (identity a)) s + 1 ≤ requests_per_minute self →
  let key := day_key (identity a) today in
  keys (store (check_rate_limit self request text_length today s)) !! key
  = Some {| value := count key s + text_length;
            expires_at := if count key s =? 0
                          then Some (clock s + 25 * 3600) else expiry key s |}.
Proof.
  intros E R C W Hm. cbv zeta.
  destruct (check_run self request a h text_length today s E R C W) as [_ ->].
  unfold served.
  destruct (Z.gtb_spec (count (minute_key (identity a)) s + 1)
              (requests_per_minute self)); [lia|].
  rewrite keys_touch, lookup_insert_eq.
  rewrite count_touch_other, expiry_touch_other, clock_touch
    by apply minute_key_not_day_key.
  do 2 f_equal.
  destruct (Z.eqb_spec (count (day_key (identity a) today) s + text_length) text_length),
    (Z.eqb_spec (count (day_key (identity a) today) s) 0); try reflexivity; lia.
Qed.

Lemma count_absent k t s : keys s !! k = None → count k (at_time t s) = 0.
Proof. intros E. unfold count, get. cbn [at_time keys]. now rewrite E. Qed.

Lemma count_live k t s e :
  keys s !! k = Some e → live t e = true → count k (at_time t s) = value e.
Proof.
  intros E L. unfold count, get. cbn [at_time keys clock]. now rewrite E, L.
Qed.

Lemma expiry_live k t s e :
  keys s !! k = Some e → live t e = true → expiry k (at_time t s) = expires_at e.
Proof.
  intros E L. unfold expiry, get. cbn [at_time keys clock]. now rewrite E, L.
Qed.

Lemma count_bounded k t s U :
  0 ≤ U → (∀ e, keys s !! k = Some e → value e ≤ U) → count k (at_time t s) ≤ U.
Proof.
  intros HU B. unfold count, get. cbn [at_time keys clock].
  destruct (keys s !! k) as [e|] eqn:E; [|exact HU].
  destruct (live t e); [|exact HU]. now apply B.
Qed.

(** *** One minute of requests from a new address *)

Section Window.
Variables (self : RateLimiter) (request : Request) (a : Address) (h : Handle).
Variable t0 : Z.
Hypothesis Henabled : enabled self = true.
Hypothesis Hredis : redis self = Some h.
Hypothesis Hclient : client request = Some a.
Hypothesis Hlisted : is_whitelisted self (identity a) = false.

Lemma day_below_served x U s s1 :
  0 ≤ U → 0 ≤ units x → day_below a U s →
  clock s1 = arrives x →
  (∀ d, keys s1 !! day_key (identity a) d = keys s !! day_key (identity a) d) →
  day_below a (U + units x)
    (touch (day_key (identity a) (date x)) (units x) (25 * 3600) s1).
Proof.
  intros HU Hu B Hc Hk d e. rewrite keys_touch.
  destruct (decide (day_key (identity a) (date x) = day_key (identity a) d))
    as [Eq|Ne].
  - rewrite Eq, lookup_insert_eq. intros [= <-]. cbn [value].
    assert (count (day_key (identity a) d) s1 ≤ U); [|lia].
    replace s1 with (at_time (arrives x) s1)
      by (destruct s1; cbn in *; now subst).
    apply count_bounded; [exact HU|]. intros e' He'. rewrite Hk in He'.
    now apply (B d).
  - rewrite lookup_insert_ne by exact Ne. rewrite Hk. intros He.
    specialize (B d e He). lia.
Qed.

Lemma admit_next x j U s :
  1 ≤ j → j + 1 ≤ requests_per_minute self →
  arrives x < t0 + 60 →
  0 ≤ U → 0 ≤ units x → U + units x ≤ chars_per_day self →
  minute_is a t0 j s → day_below a U s →
  let r := check_rate_limit self request (units x) (date x)
             (at_time (arrives x) s) in
  outcome r = Return true
  ∧ minute_is a t0 (j + 1) (store r) ∧ day_below a (U + units x) (store r).
Proof.
  intros Hj HN Ht HU Hu Hcpd Hm Hd. cbv zeta.
  destruct (check_run self request a h (units x) (date x)
              (at_time (arrives x) s) Henabled Hredis Hclient Hlisted)
    as [-> ->].
  assert (L : live (arrives x) {| value := j; expires_at := Some (t0 + 60) |} = true)
    by (cbn; lia).
  pose proof (count_live _ (arrives x) s _ Hm L) as Cm. cbn [value] in Cm.
  pose proof (expiry_live _ (arrives x) s _ Hm L) as Em. cbn [expires_at] in Em.
  assert (Cd : count (day_key (identity a) (date x)) (at_time (arrives x) s) ≤ U).
  { apply count_bounded; [exact HU|]. intros e. apply Hd. }
  unfold decision, served. rewrite Cm.
  destruct (Z.gtb_spec (j + 1) (requests_per_minute self)); [lia|].
  destruct (Z.gtb_spec
              (count (day_key (identity a) (date x)) (at_time (arrives x) s)
               + units x) (chars_per_day self)); [lia|].
  split; [reflexivity|]. split.
  - unfold minute_is.
    rewrite keys_touch_other
      by (intros Eq; symmetry in Eq; now apply minute_key_not_day_key in Eq).
    rewrite keys_touch, lookup_insert_eq, Cm, Em.
    destruct (Z.eqb_spec (j + 1) 1); [lia|reflexivity].
  - apply (day_below_served x U s); try assumption.
    + now rewrite clock_touch.
    + intros d. rewrite keys_touch_other by apply minute_key_not_day_key.
      reflexivity.
Qed.

Lemma deny_next x j s :
  1 ≤ j → requests_per_minute self < j + 1 →
  arrives x < t0 + 60 →
  minute_is a t0 j s →
  outcome (check_rate_limit self request (units x) (date x)
             (at_time (arrives x) s))
  = Raise minute_limit_exceeded.
Proof.
  intros Hj HN Ht Hm.
  destruct (check_run self request a h (units x) (date x)
              (at_time (arrives x) s) Henabled Hredis Hclient Hlisted)
    as [-> _].
  assert (L : live (arrives x) {| value := j; expires_at := Some (t0 + 60) |} = true)
    by (cbn; lia).
  pose proof (count_live _ (arrives x) s _ Hm L) as Cm. cbn [value] in Cm.
  unfold decision. rewrite Cm.
  destruct (Z.gtb_spec (j + 1) (requests_per_minute self)); [reflexivity|lia].
Qed.

Lemma admit_first x U s :
  arrives x = t0 → 1 ≤ requests_per_minute self →
  0 ≤ U → 0 ≤ units x → U + units x ≤ chars_per_day self →
  keys s !! minute_key (identity a) = None → day_below a U s →
  let r := check_rate_limit self request (units x) (date x)
             (at_time (arrives x) s) in
  outcome r = Return true
  ∧ minute_is a t0 1 (store r) ∧ day_below a (U + units x) (store r).
Proof.
  intros Ht HN HU Hu Hcpd Hm Hd. cbv zeta.
  destruct (check_run self request a h (units x) (date x)
              (at_time (arrives x) s) Henabled Hredis Hclient Hlisted)
    as [-> ->].
  pose proof (count_absent _ (arrives x) s Hm) as Cm.
  assert (Cd : count (day_key (identity a) (date x)) (at_time (arrives x) s) ≤ U).
  { apply count_bounded; [exact HU|]. intros e. apply Hd. }
  unfold decision, served. rewrite Cm.
  destruct (Z.gtb_spec (0 + 1) (requests_per_minute self)); [lia|].
  destruct (Z.gtb_spec
              (count (day_key (identity a) (date x)) (at_time (arrives x) s)
               + units x) (chars_per_day self)); [lia|].
  split; [reflexivity|]. split.
  - unfold minute_is.
    rewrite keys_touch_other
      by (intros Eq; symmetry in Eq; now apply minute_key_not_day_key in Eq).
    rewrite keys_touch, lookup_insert_eq, Cm. cbn [at_time clock Z.eqb Z.add].
    now rewrite Ht.
  - apply (day_below_served x U s); try assumption.
    + now rewrite clock_touch.
    + intros d. rewrite keys_touch_other by apply minute_key_not_day_key.
      reflexivity.
Qed.

Lemma deny_first x s :
  requests_per_minute self < 1 →
  keys s !! minute_key (identity a) = None →
  outcome (check_rate_limit self request (units x) (date x)
             (at_time (arrives x) s))
  = Raise minute_limit_exceeded.
Proof.
  intros HN Hm.
  destruct (check_run self request a h (units x) (date x)
              (at_time (arrives x) s) Henabled Hredis Hclient Hlisted)
    as [-> _].
  unfold decision. rewrite (count_absent _ (arrives x) s Hm).
  destruct (Z.gtb_spec (0 + 1) (requests_per_minute self)); [reflexivity|lia].
Qed.

(** From the second request on. *)
Lemma serve_rest first last j U s :
  1 ≤ j → j + Z.of_nat (length first) = requests_per_minute self →
  Forall (λ y, arrives y < t0 + 60) (first ++ [last]) →
  0 ≤ U → Forall (λ y, 0 ≤ units y) first →
  U + total_units first ≤ chars_per_day self →
  minute_is a t0 j s → day_below a U s →
  fst (serve self request (first ++ [last]) s)
  = replicate (length first) (Return true) ++ [Raise minute_limit_exceeded].
Proof.
  revert j U s. induction first as [|x first IH]; intros j U s Hj HN Hw HU Hu Hc Hm Hd.
  - cbn [app serve length replicate fst]. cbn [length] in HN.
    apply Forall_cons in Hw as [Hx _].
    rewrite (deny_next last j s); [reflexivity|lia..|assumption].
  - cbn [app length] in *. rewrite Nat2Z.inj_succ in HN.
    apply Forall_cons in Hw as [Hx Hw].
    apply Forall_cons in Hu as [Hux Hu].
    cbn [total_units foldr] in Hc. fold (total_units first) in Hc.
    assert (0 ≤ total_units first) as Hpos.
    { clear -Hu. induction Hu; cbn; [lia|].
      fold (total_units l). lia. }
    destruct (admit_next x j U s) as (Ho & Hm' & Hd'); try assumption; try lia.
    cbn [serve].
    specialize (IH (j + 1) (U + units x) _ ltac:(lia) ltac:(lia) Hw ltac:(lia)
                  Hu ltac:(lia) Hm' Hd').
    destruct (serve self request (first ++ [last]) _) as [outs s'].
    cbn [fst] in *. rewrite Ho, IH. reflexivity.
Qed.

End Window.

End OnRedisFacts.

(** ** The properties of the specification *)

(** *** Rejections *)

(** C1, as the code has it: a rejection is an [HTTPException] with status
    429 whose detail has [error] ["rate_limit_exceeded"] and [type]
    ["rate_limit_error"] whichever ceiling was passed; the message alone
    says which, the one of the minute check after the request count went
    over [requests_per_minute], the one of the day check after the
    character count went over [chars_per_day]. *)
Theorem rejection_codes_fixed_message_tells
    {S : Type} `{RedisClient S} (self : RateLimiter) (request : Request)
    (text_length : Z) (today : string) (s : S) (status_code : Z) (detail : Detail) :
  let r := check_rate_limit self request text_length today s in
  outcome r = Raise (HTTPException status_code detail) →
  status_code = 429
  ∧ detail_error detail = "rate_limit_exceeded"
  ∧ detail_type detail = "rate_limit_error"
  ∧ ((message_of minute_limit_exceeded = Some (detail_message detail)
      ∧ ∃ ip n, requests_per_minute self < n
          ∧ last (logged r) = Some (warn_minute_exceeded ip n (requests_per_minute self)))
     ∨ (message_of day_limit_exceeded = Some (detail_message detail)
        ∧ ∃ ip n, chars_per_day self < n
            ∧ last (logged r) = Some (warn_day_exceeded ip n (chars_per_day self))))
  ∧ message_of minute_limit_exceeded ≠ message_of day_limit_exceeded.
Proof.
  cbv zeta.
  destruct (check_rate_limit_path self request text_length today s)
    as [E|E R|h E R C|h a E R C W|h a E R C W g]; cbn [outcome logged];
    intros Ho; try discriminate Ho.
  destruct (guarded_outcomes self (identity a) text_length today s)
    as [G|[G|G]]; fold g in G; rewrite G in Ho; try discriminate Ho.
  - destruct (guarded_minute_denied self (identity a) text_length today s G)
      as (_ & n & Hn & Hl). fold g in Hl.
    injection Ho as <- <-. repeat (split; [reflexivity|]). split; [|discriminate].
    left. split; [reflexivity|]. exists (identity a), n. split; [exact Hn|].
    rewrite Hl. apply last_snoc.
  - destruct (guarded_day_denied self (identity a) text_length today s G)
      as (n & Hn & Hl & _). fold g in Hl.
    injection Ho as <- <-. repeat (split; [reflexivity|]). split; [|discriminate].
    right. split; [reflexivity|]. exists (identity a), n. split; [exact Hn|].
    rewrite Hl. apply last_snoc.
Qed.

Lemma rejection_codes_fixed_message_tells_witness :
  let r := check_rate_limit (Sample.limiter_with 0 1000) Sample.request 50
             Sample.today Redis.empty in
  outcome r = Raise minute_limit_exceeded
  ∧ coded_fields minute_limit_exceeded
    = Some (429, "rate_limit_exceeded", "rate_limit_error")
  ∧ message_of minute_limit_exceeded ≠ message_of day_limit_exceeded.
Proof.
  cbv zeta.
  assert (Ho : outcome (check_rate_limit (Sample.limiter_with 0 1000) Sample.request
                          50 Sample.today Redis.empty)
               = Raise minute_limit_exceeded)
    by (vm_compute; reflexivity).
  destruct (rejection_codes_fixed_message_tells
              (Sample.limiter_with 0 1000) Sample.request 50 Sample.today
              Redis.empty _ _ Ho) as (Hs & He & Ht & _ & Hm).
  split; [exact Ho|]. split; [|exact Hm].
  cbn [coded_fields minute_limit_exceeded]. now rewrite He, Ht.
Defined.

(** C1, as stated, fails: a request turned away by the minute check and
    one turned away by the day check carry the same status code, the same
    [error] and the same [type]; no field of the rejection says which
    ceiling was passed. *)
Lemma rejections_carry_no_reason_code :
  let by_minute := check_rate_limit (Sample.limiter_with 0 1000) Sample.request 50
                     Sample.today Redis.empty in
  let by_day := check_rate_limit (Sample.limiter_with 5 10) Sample.request 50
                  Sample.today Redis.empty in
  ∃ e_minute e_day,
    outcome by_minute = Raise e_minute ∧ outcome by_day = Raise e_day
    ∧ (∃ n limit, logged by_minute = [warn_minute_exceeded "203.0.113.9" n limit])
    ∧ (∃ n limit, logged by_day = [warn_day_exceeded "203.0.113.9" n limit])
    ∧ coded_fields e_minute = coded_fields e_day
    ∧ coded_fields e_minute = Some (429, "rate_limit_exceeded", "rate_limit_error").
Proof.
  cbv zeta. exists minute_limit_exceeded, day_limit_exceeded.
  split; [vm_compute; reflexivity|]. split; [vm_compute; reflexivity|].
  split; [eexists _, _; vm_compute; reflexivity|].
  split; [eexists _, _; vm_compute; reflexivity|].
  split; reflexivity.
Qed.

(** *** The whitelist *)

(** C7: a whitelisted address is let through whatever the store holds, and
    the call sends the store nothing and leaves it as it was. *)
Theorem whitelisted_admitted_without_store
    {S : Type} `{RedisClient S} (self : RateLimiter) (request : Request)
    (a : Address) (text_length : Z) (today : string) (s : S) :
  client request = Some a →
  is_whitelisted self (identity a) = true →
  let r := check_rate_limit self request text_length today s in
  outcome r = Return true ∧ issued r = [] ∧ store r = s.
Proof.
  intros C W. cbv zeta.
  destruct (check_rate_limit_path self request text_length today s)
    as [E|E R|h E R C'|h a' E R C' W'|h a' E R C' W' g]; cbn [outcome issued store];
    try (repeat split; reflexivity); congruence.
Qed.

Lemma whitelisted_admitted_without_store_witness :
  let r := check_rate_limit Sample.limiter Sample.listed_request 50
             Sample.today Redis.empty in
  outcome r = Return true ∧ issued r = [] ∧ store r = Redis.empty.
Proof.
  apply (whitelisted_admitted_without_store Sample.limiter Sample.listed_request
           {| host := "10.0.0.1"; port := 51234 |}).
  - reflexivity.
  - vm_compute. reflexivity.
Defined.

(** C10: an address is whitelisted exactly when it equals a configured
    entry after that entry was stripped, entries that strip to nothing
    being dropped; so an entry written with white space around it matches
    its address, and an address that itself has white space at either end
    matches nothing, the address being compared as it came. *)
Theorem whitelist_matches_stripped_entries
    (settings : Settings) (redis_client : option Handle) (ip : string) :
  let self := RateLimiter_init settings redis_client in
  (is_whitelisted self ip = true ↔
     ∃ entry, entry ∈ rate_limit_whitelist settings
              ∧ PyStr.strip entry ≠ "" ∧ ip = PyStr.strip entry)
  ∧ (∀ entry, entry ∈ rate_limit_whitelist settings → PyStr.strip entry ≠ "" →
       is_whitelisted self (PyStr.strip entry) = true)
  ∧ (PyStr.strip ip ≠ ip → is_whitelisted self ip = false).
Proof.
  cbv zeta. split; [apply is_whitelisted_init|]. split.
  - intros entry He Hne. apply is_whitelisted_init. eauto.
  - intros Hs. destruct (is_whitelisted _ ip) eqn:W; [|reflexivity].
    apply is_whitelisted_init in W as (entry & _ & _ & ->).
    now rewrite PyStrFacts.strip_idem in Hs.
Qed.

Lemma whitelist_matches_stripped_entries_witness :
  is_whitelisted Sample.limiter "10.0.0.1" = true
  ∧ is_whitelisted Sample.limiter " 10.0.0.1 " = false
  ∧ is_whitelisted Sample.limiter "" = false.
Proof.
  destruct (whitelist_matches_stripped_entries Sample.settings (Some 0%nat)
              " 10.0.0.1 ") as (_ & Hentry & Hraw).
  split; [|split].
  - apply (Hentry " 10.0.0.1 "); [|vm_compute; discriminate].
    apply list_elem_of_here.
  - apply Hraw. vm_compute. discriminate.
  - vm_compute. reflexivity.
Defined.

(** An address that arrives with a blank in front is not the whitelisted
    one: the request goes to the counters. *)
Example padded_address_is_counted :
  let request := {| client := Some {| host := " 10.0.0.1"; port := 51234 |} |} in
  let r := check_rate_limit Sample.limiter request 50 Sample.today Redis.empty in
  is_whitelisted Sample.limiter "10.0.0.1" = true
  ∧ command <$> issued r
    = [Incr (minute_key " 10.0.0.1"); Expire (minute_key " 10.0.0.1") 60;
       IncrBy (day_key " 10.0.0.1" Sample.today) 50;
       Expire (day_key " 10.0.0.1" Sample.today) (25 * 3600)].
Proof. vm_compute. repeat split. Qed.

(** *** The minute check comes first *)

Lemma minute_denied_store self ip text_length today (s : Redis.Server) :
  outcome (guarded_checks self ip text_length today s) = Raise minute_limit_exceeded →
  store (guarded_checks self ip text_length today s)
  = OnRedis.touch (minute_key ip) 1 60 s.
Proof.
  intros Ho. pose proof (OnRedisFacts.guarded_run self ip text_length today s) as G.
  cbv zeta in G.
  destruct (_ >? requests_per_minute self); [apply G|].
  destruct (_ >? chars_per_day self); destruct G as [G _]; rewrite G in Ho.
  - exfalso. apply rejections_differ. congruence.
  - discriminate Ho.
Qed.

(** C5: a call turned away by the minute check has sent the store only the
    increment of the minute counter and, at most, its expiry; on the counter
    store every day counter, of whatever address and date, is as before. *)
Theorem minute_denial_spares_day_counter :
  (∀ (S : Type) (store_ops : RedisClient S) (self : RateLimiter) (request : Request)
     (text_length : Z) (today : string) (s : S),
     let r := check_rate_limit self request text_length today s in
     outcome r = Raise minute_limit_exceeded →
     ∃ a, client request = Some a
          ∧ Forall (on_minute_key (identity a)) (issued r))
  ∧ (∀ (self : RateLimiter) (request : Request) (text_length : Z)
       (today : string) (s : Redis.Server),
       let r := check_rate_limit self request text_length today s in
       outcome r = Raise minute_limit_exceeded →
       ∀ ip date,
         Redis.keys (store r) !! day_key ip date = Redis.keys s !! day_key ip date).
Proof.
  split.
  - intros S cl self request text_length today s. cbv zeta.
    destruct (check_rate_limit_path self request text_length today s)
      as [E|E R|h E R C|h a E R C W|h a E R C W g]; cbn [outcome issued];
      intros Ho; try discriminate Ho.
    exists a. split; [exact C|].
    now apply (guarded_minute_denied self (identity a) text_length today s).
  - intros self request text_length today s. cbv zeta.
    destruct (check_rate_limit_path self request text_length today s)
      as [E|E R|h E R C|h a E R C W|h a E R C W g]; cbn [outcome store];
      intros Ho; try discriminate Ho.
    intros ip date. unfold g. rewrite minute_denied_store by exact Ho.
    apply OnRedisFacts.keys_touch_other, minute_key_not_day_key.
Qed.

Lemma minute_denial_spares_day_counter_witness :
  let r := check_rate_limit (Sample.limiter_with 0 1000) Sample.request 50
             Sample.today Redis.empty in
  outcome r = Raise minute_limit_exceeded
  ∧ Redis.keys (store r) !! day_key "203.0.113.9" Sample.today = None.
Proof.
  cbv zeta.
  assert (Ho : outcome (check_rate_limit (Sample.limiter_with 0 1000) Sample.request
                          50 Sample.today Redis.empty)
               = Raise minute_limit_exceeded)
    by (vm_compute; reflexivity).
  split; [exact Ho|].
  destruct minute_denial_spares_day_counter as [_ T].
  rewrite (T (Sample.limiter_with 0 1000) Sample.request 50 Sample.today
             Redis.empty Ho "203.0.113.9" Sample.today).
  reflexivity.
Defined.

(** *** A request without a client address *)

(** C9, where the code departs from it: with the limiter on and a Redis
    client at hand, a request whose [client] is [None] ends neither in
    [True] nor in a 429; reading [request.client.host] raises
    [AttributeError] before the [try] is entered. *)
Theorem no_client_address_raises_AttributeError :
  let r := check_rate_limit Sample.limiter Sample.no_client 50
             Sample.today Redis.empty in
  outcome r = Raise (AttributeError "'NoneType' object has no attribute 'host'")
  ∧ outcome r ≠ Return true
  ∧ ∀ detail, outcome r ≠ Raise (HTTPException 429 detail).
Proof.
  cbv zeta.
  rewrite (check_no_client Sample.limiter Sample.no_client 50 Sample.today
             Redis.empty 0%nat eq_refl eq_refl eq_refl).
  cbn [outcome]. split; [reflexivity|]. split; [discriminate|].
  intros detail. discriminate.
Qed.

(** C6, where the code departs from it: the same request makes a fault
    other than the rejection reach the caller, with no command sent to the
    store and no line logged. *)
Theorem fault_other_than_rejection_reaches_caller :
  let r := check_rate_limit Sample.limiter Sample.no_client 50
             Sample.today Redis.empty in
  (∃ e, outcome r = Raise e ∧ coded_fields e = None
        ∧ e ≠ minute_limit_exceeded ∧ e ≠ day_limit_exceeded)
  ∧ issued r = [] ∧ logged r = [].
Proof.
  cbv zeta.
  rewrite (check_no_client Sample.limiter Sample.no_client 50 Sample.today
             Redis.empty 0%nat eq_refl eq_refl eq_refl).
  cbn [outcome issued logged]. split; [|split; reflexivity].
  eexists. split; [reflexivity|]. split; [reflexivity|].
  split; discriminate.
Qed.

(** *** The expiry of the day counter *)

(** C3, where the code departs from it: the expiry is set when the reply
    equals the text length, which is also so when the counter exists and
    stands at 0. A first request of length 0 creates the counter with 25
    hours to live; an hour later a request of length 50 from the same
    address on the same date finds the counter, and sets the 25 hours
    anew. *)
Theorem day_expiry_set_again_on_zero_counter :
  let key := day_key "203.0.113.9" Sample.today in
  let r1 := check_rate_limit Sample.limiter Sample.request 0 Sample.today
              (Redis.at_time 0 Redis.empty) in
  let before := Redis.at_time 3600 (store r1) in
  let r2 := check_rate_limit Sample.limiter Sample.request 50 Sample.today before in
  outcome r1 = Return true
  ∧ Redis.get key before = Some {| Redis.value := 0; Redis.expires_at := Some 90000 |}
  ∧ outcome r2 = Return true
  ∧ command <$> issued r2
    = [Incr (minute_key "203.0.113.9"); Expire (minute_key "203.0.113.9") 60;
       IncrBy key 50; Expire key (25 * 3600)]
  ∧ Redis.keys (store r2) !! key
    = Some {| Redis.value := 50; Redis.expires_at := Some (3600 + 90000) |}.
Proof.
  cbv zeta. split; [vm_compute; reflexivity|]. split; [vm_compute; reflexivity|].
  split; [vm_compute; reflexivity|]. split; vm_compute; reflexivity.
Qed.

(** *** The first minute of a new address *)

(** C4, as the code has it: for an address that is not whitelisted and has
    no counter yet, with the limiter on and the store answering, and
    [requests_per_minute = N]: if the text lengths are not negative and
    those of the first [N] requests add up to at most [chars_per_day], then
    of [N + 1] requests within the minute the first opens, the first [N]
    return [True] and the last is turned away by the minute check. *)
Theorem first_N_admitted_next_denied
    (self : RateLimiter) (request : Request) (a : Address) (h : Handle)
    (first : list OnRedis.Arrival) (last : OnRedis.Arrival) (s : Redis.Server) :
  enabled self = true → redis self = Some h →
  client request = Some a → is_whitelisted self (identity a) = false →
  Redis.keys s !! minute_key (identity a) = None →
  (∀ date, Redis.keys s !! day_key (identity a) date = None) →
  Z.of_nat (length first) = requests_per_minute self →
  OnRedis.same_window (first ++ [last]) →
  Forall (λ x, 0 ≤ OnRedis.units x) first →
  OnRedis.total_units first ≤ chars_per_day self →
  fst (OnRedis.serve self request (first ++ [last]) s)
  = replicate (length first) (Return true) ++ [Raise minute_limit_exceeded].
Proof.
  intros E R C W Hm Hd HN Hw Hu Hc.
  destruct first as [|x first].
  - cbn [app length replicate OnRedis.serve fst]. cbn [length] in HN.
    rewrite (OnRedisFacts.deny_first self request a h E R C W last s);
      [reflexivity|lia|exact Hm].
  - cbn [app length] in *. rewrite Nat2Z.inj_succ in HN.
    apply Forall_cons in Hu as [Hux Hu].
    cbn [OnRedis.total_units foldr] in Hc. fold (OnRedis.total_units first) in Hc.
    assert (0 ≤ OnRedis.total_units first) as Hpos.
    { clear -Hu. induction Hu; cbn; [lia|]. fold (OnRedis.total_units l). lia. }
    destruct (OnRedisFacts.admit_first self request a h (OnRedis.arrives x) E R C W x 0 s)
      as (Ho & Hm' & Hd'); try assumption; try lia; try reflexivity.
    { intros d e He. rewrite Hd in He. discriminate He. }
    cbn [OnRedis.serve OnRedis.same_window] in *.
    set (r := check_rate_limit self request (OnRedis.units x) (OnRedis.date x)
                (Redis.at_time (OnRedis.arrives x) s)) in *.
    pose proof (OnRedisFacts.serve_rest self request a h (OnRedis.arrives x) E R C W
                  first last 1 (0 + OnRedis.units x) (store r)) as Rest.
    destruct (OnRedis.serve self request (first ++ [last]) (store r)) as [outs s'].
    cbn [fst replicate] in *. rewrite Ho. cbn [app]. f_equal.
    apply Rest; try assumption; try lia.
    eapply Forall_impl; [exact Hw|]. cbn. intros y Hy. lia.
Qed.

Lemma first_N_admitted_next_denied_witness :
  fst (OnRedis.serve (Sample.limiter_with 2 1000) Sample.request
         ([ {| OnRedis.arrives := 100; OnRedis.date := Sample.today; OnRedis.units := 400 |};
            {| OnRedis.arrives := 110; OnRedis.date := Sample.today; OnRedis.units := 600 |} ]
          ++ [ {| OnRedis.arrives := 159; OnRedis.date := Sample.today; OnRedis.units := 5 |} ])
         Redis.empty)
  = [Return true; Return true; Raise minute_limit_exceeded].
Proof.
  apply (first_N_admitted_next_denied (Sample.limiter_with 2 1000) Sample.request
           {| host := "203.0.113.9"; port := 51234 |} 0%nat).
  - reflexivity.
  - reflexivity.
  - reflexivity.
  - vm_compute. reflexivity.
  - reflexivity.
  - intros date. reflexivity.
  - reflexivity.
  - cbn. repeat constructor; cbn; lia.
  - repeat constructor; cbn; lia.
  - cbn. lia.
Defined.

(** C4, as stated, fails: a new address whose first request is longer than
    the day allows is turned away at once, by the day check, though the
    minute ceiling of five is far. *)
Lemma first_request_over_day_budget_denied :
  let self := Sample.limiter_with 5 10 in
  let r := check_rate_limit self Sample.request 50 Sample.today Redis.empty in
  requests_per_minute self = 5
  ∧ is_whitelisted self "203.0.113.9" = false
  ∧ outcome r = Raise day_limit_exceeded
  ∧ outcome r ≠ Return true.
Proof.
  cbv zeta. split; [reflexivity|]. split; [vm_compute; reflexivity|].
  assert (Ho : outcome (check_rate_limit (Sample.limiter_with 5 10) Sample.request 50
                          Sample.today Redis.empty) = Raise day_limit_exceeded)
    by (vm_compute; reflexivity).
  split; [exact Ho|]. rewrite Ho. discriminate.
Qed.

(** *** The connection and the limiter singleton *)

(** C8: once [get_client] has returned a client, calling it again, whatever
    the network does meanwhile, returns the same client and changes nothing:
    no client is built, no ping sent, no line logged. *)
Theorem get_client_idempotent
    (net net' : Process.Network) (p : Process.State) (h : Handle) :
  fst (Process.get_client net p) = Some h →
  let p1 := snd (Process.get_client net p) in
  Process.get_client net' p1 = (Some h, p1)
  ∧ Process.events (snd (Process.get_client net' p1)) = Process.events p1
  ∧ Process.built (snd (Process.get_client net' p1)) = Process.built p1.
Proof.
  intros Hh. cbv zeta.
  assert (Hc : Process._redis_client (snd (Process.get_client net p)) = Some h).
  { unfold Process.get_client in *.
    destruct (Process._redis_client p) as [h0|] eqn:Hp; cbn [fst snd] in *.
    - now rewrite Hp.
    - destruct (Process.constructs net); [|discriminate Hh].
      destruct (Process.answers_ping net); [|discriminate Hh].
      exact Hh. }
  assert (Process.get_client net' (snd (Process.get_client net p))
          = (Some h, snd (Process.get_client net p))) as ->.
  { unfold Process.get_client at 1. now rewrite Hc. }
  repeat split.
Qed.

Lemma get_client_idempotent_witness :
  let p1 := snd (Process.get_client Process.reachable Process.initial) in
  Process.get_client Process.unreachable p1 = (Some 0%nat, p1)
  ∧ Process.events p1 = [Process.Constructed 0%nat; Process.Pinged 0%nat true].
Proof.
  cbv zeta. split; [|reflexivity].
  apply (get_client_idempotent Process.reachable Process.unreachable
           Process.initial 0%nat).
  reflexivity.
Defined.

(** C2, as the code has it: [get_rate_limiter] acquires the connection
    once, when it builds the limiter, and the limiter keeps what it got
    then; every later call returns that limiter and attempts nothing,
    whatever the network. A limiter built without a client lets every
    request through and sends the store nothing. Only [get_client] tries
    again, each time it is called with no client kept. *)
Theorem limiter_keeps_first_handle
    (settings : Settings) (net net' : Process.Network) (p : Process.State) :
  let '(limiter, p1) := Process.get_rate_limiter settings net p in
  (Process._rate_limiter p = None →
     redis limiter = fst (Process.get_client net p))
  ∧ Process.get_rate_limiter settings net' p1 = (limiter, p1)
  ∧ (∀ (S : Type) (store_ops : RedisClient S) request text_length today (s : S),
       enabled limiter = true → redis limiter = None →
       let r := check_rate_limit limiter request text_length today s in
       outcome r = Return true ∧ issued r = [] ∧ store r = s
       ∧ logged r = [warn_redis_not_available])
  ∧ (Process._redis_client p1 = None →
     Process.constructs net' = true → Process.answers_ping net' = true →
     fst (Process.get_client net' p1) = Some (Process.built p1)).
Proof.
  destruct (Process.get_rate_limiter settings net p) as [limiter p1] eqn:G.
  unfold Process.get_rate_limiter in G.
  assert (Hl : Process._rate_limiter p1 = Some limiter).
  { destruct (Process._rate_limiter p) as [l0|] eqn:Hp.
    - injection G as <- <-. exact Hp.
    - unfold Process.get_redis in G.
      destruct (Process.get_client net p) as [c p0]. injection G as <- <-.
      reflexivity. }
  split; [|split; [|split]].
  - intros Hp. rewrite Hp in G. unfold Process.get_redis in G.
    destruct (Process.get_client net p) as [c p0]. injection G as <- _.
    reflexivity.
  - unfold Process.get_rate_limiter. now rewrite Hl.
  - intros S store_ops request text_length today s E R. cbv zeta.
    rewrite check_no_redis by assumption. repeat split.
  - intros Hc Hk Ha. unfold Process.get_client. now rewrite Hc, Hk, Ha.
Qed.

Lemma limiter_keeps_first_handle_witness :
  let p1 := snd (Process.get_rate_limiter Sample.settings Process.unreachable
                   Process.initial) in
  let limiter := fst (Process.get_rate_limiter Sample.settings Process.unreachable
                        Process.initial) in
  redis limiter = None
  ∧ Process.get_rate_limiter Sample.settings Process.reachable p1 = (limiter, p1)
  ∧ fst (Process.get_client Process.reachable p1) = Some 1%nat.
Proof.
  cbv zeta.
  pose proof (limiter_keeps_first_handle Sample.settings Process.unreachable
                Process.reachable Process.initial) as T.
  destruct (Process.get_rate_limiter Sample.settings Process.unreachable
              Process.initial) as [limiter p1] eqn:G.
  destruct T as (Hr & Hsame & _ & Hretry). cbn [fst snd].
  split; [now rewrite Hr|]. split; [exact Hsame|].
  injection G as <- <-. now apply Hretry.
Defined.

(** C2, as stated, fails: the store is down when the limiter is built and
    up from then on; the next request gets the limiter that has no client,
    no connection is attempted, and the check lets the request through
    without the store, which a [get_client] at that moment would reach. *)
Lemma limiter_does_not_reacquire :
  let p1 := snd (Process.get_rate_limiter Sample.settings Process.unreachable
                   Process.initial) in
  let '(limiter, p2) := Process.get_rate_limiter Sample.settings Process.reachable p1 in
  let r := check_rate_limit limiter Sample.request 50 Sample.today Redis.empty in
  redis limiter = None
  ∧ Process.events p2 = Process.events p1
  ∧ p2 = p1
  ∧ outcome r = Return true ∧ issued r = []
  ∧ logged r = [warn_redis_not_available]
  ∧ fst (Process.get_client Process.reachable p2) = Some 1%nat.
Proof. vm_compute. repeat split. Qed.


(** * Part III: more of what the code does *)

(** ** Keys of different addresses *)

Module KeyFacts.

Lemma length_app (s t : string) :
  String.length (s +:+ t) = (String.length s + String.length t)%nat.
Proof.
  induction s as [|c s IH]; [reflexivity|].
  change (String c s +:+ t) with (String c (s +:+ t)).
  cbn [String.length]. now rewrite IH.
Qed.

(** Two strings that end in tails of one length are equal part by part. *)
Lemma app_eq_split (s1 s2 t1 t2 : string) :
  s1 +:+ t1 = s2 +:+ t2 → String.length t1 = String.length t2 →
  s1 = s2 ∧ t1 = t2.
Proof.
  revert s2. induction s1 as [|c s1 IH]; intros [|c2 s2] E L.
  - split; [reflexivity|exact E].
  - exfalso. apply (f_equal String.length) in E.
    rewrite !length_app in E. cbn [String.length] in E. lia.
  - exfalso. apply (f_equal String.length) in E.
    rewrite !length_app in E. cbn [String.length] in E. lia.
  - change (String c (s1 +:+ t1) = String c2 (s2 +:+ t2)) in E.
    injection E as -> E. destruct (IH s2 E L) as [-> ->]. split; reflexivity.
Qed.

Lemma minute_key_inj ip ip' : minute_key ip = minute_key ip' → ip = ip'.
Proof.
  unfold minute_key. intros E%String.app_inj.
  now apply app_eq_split in E as [-> _].
Qed.

(** The day keys of two addresses on dates written at one length. *)
Lemma day_key_inj ip ip' d d' :
  day_key ip d = day_key ip' d' → String.length d = String.length d' →
  ip = ip' ∧ d = d'.
Proof.
  unfold day_key. intros E%String.app_inj L.
  apply app_eq_split in E as [-> E];
    [|rewrite !length_app; cbn [String.length]; now rewrite L].
  split; [reflexivity|]. now apply String.app_inj in E.
Qed.

End KeyFacts.

(** ** Counters after a call *)

Module CounterFacts.
Import Redis OnRedis OnRedisFacts.




Lemma live_same_expiry t v e :
  live t {| value := v; expires_at := expires_at e |} = live t e.
Proof. reflexivity. Qed.

End CounterFacts.

Section CheckedOnRedis.
Import Redis OnRedis OnRedisFacts CounterFacts.
Variables (self : RateLimiter) (request : Request) (a : Address) (h : Handle).
Hypothesis Henabled : enabled self = true.
Hypothesis Hredis : redis self = Some h.
Hypothesis Hclient : client request = Some a.
Hypothesis Hlisted : is_whitelisted self (identity a) = false.


(** What one arrival does to a minute counter that has no expiry. *)
Lemma no_expiry_step (x : Arrival) (j0 j : Z) (s : Server) :
  1 ≤ j0 → requests_per_minute self ≤ j0 → j0 ≤ j →
  keys s !! minute_key (identity a) = Some {| value := j; expires_at := None |} →
  let r := check_rate_limit self request (units x) (date x)
             (at_time (arrives x) s) in
  outcome r = Raise minute_limit_exceeded
  ∧ keys (store r) !! minute_key (identity a)
    = Some {| value := j + 1; expires_at := None |}.
Proof.
  intros H1 HN Hle Hk. cbv zeta.
  destruct (check_run self request a h (units x) (date x) (at_time (arrives x) s)
              Henabled Hredis Hclient Hlisted) as [-> ->].
  assert (L : live (arrives x) {| value := j; expires_at := None |} = true)
    by reflexivity.
  pose proof (count_live _ (arrives x) s _ Hk L) as Cm. cbn [value] in Cm.
  pose proof (expiry_live _ (arrives x) s _ Hk L) as Em. cbn [expires_at] in Em.
  unfold decision, served. rewrite Cm.
  destruct (Z.gtb_spec (j + 1) (requests_per_minute self)); [|lia].
  split; [reflexivity|].
  rewrite keys_touch, lookup_insert_eq, Cm, Em.
  destruct (Z.eqb_spec (j + 1) 1); [lia|reflexivity].
Qed.

End CheckedOnRedis.

(** ** The limiter, beyond the claims *)

(** X1: with the limiter off, or with no Redis client, every request is let
    through, one without a client address too: nothing is raised, nothing
    is sent to the store, and the only line logged is the warning of the
    missing client. *)
Theorem off_or_unconnected_lets_everything_through
    {S : Type} `{RedisClient S} (self : RateLimiter) (request : Request)
    (text_length : Z) (today : string) (s : S) :
  enabled self = false ∨ redis self = None →
  let r := check_rate_limit self request text_length today s in
  outcome r = Return true ∧ issued r = [] ∧ store r = s
  ∧ logged r = if enabled self then [warn_redis_not_available] else [].
Proof.
  intros Hoff. cbv zeta. destruct (enabled self) eqn:E.
  - destruct Hoff as [?|R]; [discriminate|].
    rewrite check_no_redis by assumption. repeat split.
  - rewrite check_disabled by assumption. repeat split.
Qed.

Lemma off_or_unconnected_lets_everything_through_witness :
  let self := RateLimiter_init Sample.settings None in
  let r := check_rate_limit self Sample.no_client 50 Sample.today Redis.empty in
  outcome r = Return true ∧ issued r = [] ∧ store r = Redis.empty
  ∧ logged r = [warn_redis_not_available].
Proof.
  apply (off_or_unconnected_lets_everything_through
           (RateLimiter_init Sample.settings None) Sample.no_client 50
           Sample.today Redis.empty).
  right. reflexivity.
Defined.



(** X3: while the minute counter of an address lives, a request of that
    address adds 1 to it and leaves its expiry where the first request of
    the window put it, whether the request is let through or turned away:
    requests do not push the end of the window. *)
Theorem window_end_never_moves
    (self : RateLimiter) (request : Request) (a : Address) (h : Handle)
    (t0 j : Z) (x : OnRedis.Arrival) (s : Redis.Server) :
  enabled self = true → redis self = Some h →
  client request = Some a → is_whitelisted self (identity a) = false →
  j ≠ 0 → OnRedis.arrives x < t0 + 60 →
  OnRedis.minute_is a t0 j s →
  OnRedis.minute_is a t0 (j + 1)
    (store (check_rate_limit self request (OnRedis.units x) (OnRedis.date x)
              (Redis.at_time (OnRedis.arrives x) s))).
Proof.
  intros E R C W Hj Ht Hm.
  destruct (OnRedisFacts.check_run self request a h (OnRedis.units x) (OnRedis.date x)
              (Redis.at_time (OnRedis.arrives x) s) E R C W) as [_ ->].
  assert (L : Redis.live (OnRedis.arrives x)
                {| Redis.value := j; Redis.expires_at := Some (t0 + 60) |} = true)
    by (cbn; lia).
  pose proof (OnRedisFacts.count_live _ (OnRedis.arrives x) s _ Hm L) as Cm.
  pose proof (OnRedisFacts.expiry_live _ (OnRedis.arrives x) s _ Hm L) as Em.
  cbn [Redis.value Redis.expires_at] in Cm, Em.
  assert (Hk : Redis.keys (OnRedis.touch (minute_key (identity a)) 1 60
                             (Redis.at_time (OnRedis.arrives x) s))
               !! minute_key (identity a)
               = Some {| Redis.value := j + 1; Redis.expires_at := Some (t0 + 60) |}).
  { rewrite OnRedisFacts.keys_touch, lookup_insert_eq, Cm, Em.
    destruct (Z.eqb_spec (j + 1) 1); [lia|reflexivity]. }
  unfold OnRedis.minute_is, OnRedis.served.
  destruct (_ >? requests_per_minute self); [exact Hk|].
  rewrite OnRedisFacts.keys_touch_other
    by (intros Eq; symmetry in Eq; now apply minute_key_not_day_key in Eq).
  exact Hk.
Qed.

Lemma window_end_never_moves_witness :
  let x1 := {| OnRedis.arrives := 100; OnRedis.date := Sample.today; OnRedis.units := 5 |} in
  let x2 := {| OnRedis.arrives := 159; OnRedis.date := Sample.today; OnRedis.units := 5 |} in
  let s1 := store (check_rate_limit (Sample.limiter_with 1 1000) Sample.request 5
                     Sample.today (Redis.at_time 100 Redis.empty)) in
  OnRedis.minute_is {| host := "203.0.113.9"; port := 51234 |} 100 2
    (store (check_rate_limit (Sample.limiter_with 1 1000) Sample.request
              (OnRedis.units x2) (OnRedis.date x2)
              (Redis.at_time (OnRedis.arrives x2) s1))).
Proof.
  cbv zeta.
  apply (window_end_never_moves (Sample.limiter_with 1 1000) Sample.request
           {| host := "203.0.113.9"; port := 51234 |} 0%nat 100 1
           {| OnRedis.arrives := 159; OnRedis.date := Sample.today; OnRedis.units := 5 |}).
  - reflexivity.
  - reflexivity.
  - reflexivity.
  - vm_compute. reflexivity.
  - lia.
  - cbn. lia.
  - vm_compute. reflexivity.
Defined.

(** X4: a request that comes a minute or more after the one that opened the
    window finds the minute counter gone: it counts as the first of a new
    window, which ends a minute after it, and the minute check turns it
    away only if the ceiling is below 1. *)
Theorem new_window_after_a_minute
    (self : RateLimiter) (request : Request) (a : Address) (h : Handle)
    (t0 j : Z) (x : OnRedis.Arrival) (s : Redis.Server) :
  enabled self = true → redis self = Some h →
  client request = Some a → is_whitelisted self (identity a) = false →
  t0 + 60 ≤ OnRedis.arrives x →
  OnRedis.minute_is a t0 j s →
  let r := check_rate_limit self request (OnRedis.units x) (OnRedis.date x)
             (Redis.at_time (OnRedis.arrives x) s) in
  OnRedis.minute_is a (OnRedis.arrives x) 1 (store r)
  ∧ (outcome r = Raise minute_limit_exceeded ↔ requests_per_minute self < 1).
Proof.
  intros E R C W Ht Hm. cbv zeta.
  destruct (OnRedisFacts.check_run self request a h (OnRedis.units x) (OnRedis.date x)
              (Redis.at_time (OnRedis.arrives x) s) E R C W) as [-> ->].
  assert (Cm : OnRedis.count (minute_key (identity a))
                 (Redis.at_time (OnRedis.arrives x) s) = 0).
  { unfold OnRedis.count, Redis.get. cbn [Redis.at_time Redis.keys Redis.clock].
    rewrite Hm. cbn [Redis.live Redis.expires_at].
    destruct (Z.ltb_spec (OnRedis.arrives x) (t0 + 60)); [lia|reflexivity]. }
  assert (Hk : Redis.keys (OnRedis.touch (minute_key (identity a)) 1 60
                             (Redis.at_time (OnRedis.arrives x) s))
               !! minute_key (identity a)
               = Some {| Redis.value := 1;
                         Redis.expires_at := Some (OnRedis.arrives x + 60) |}).
  { now rewrite OnRedisFacts.keys_touch, lookup_insert_eq, Cm. }
  unfold OnRedis.minute_is, OnRedis.decision, OnRedis.served. rewrite Cm.
  destruct (Z.gtb_spec (0 + 1) (requests_per_minute self)).
  - split; [exact Hk|]. split; [lia|reflexivity].
  - split.
    + rewrite OnRedisFacts.keys_touch_other
        by (intros Eq; symmetry in Eq; now apply minute_key_not_day_key in Eq).
      exact Hk.
    + split; [|lia]. intros Ho. exfalso.
      destruct (_ >? chars_per_day self); [|discriminate Ho].
      apply rejections_differ. congruence.
Qed.

Lemma new_window_after_a_minute_witness :
  let s1 := store (check_rate_limit (Sample.limiter_with 1 1000) Sample.request 5
                     Sample.today (Redis.at_time 100 Redis.empty)) in
  let r := check_rate_limit (Sample.limiter_with 1 1000) Sample.request 5
             Sample.today (Redis.at_time 160 s1) in
  OnRedis.minute_is {| host := "203.0.113.9"; port := 51234 |} 160 1 (store r)
  ∧ outcome r = Return true.
Proof.
  cbv zeta.
  destruct (new_window_after_a_minute (Sample.limiter_with 1 1000) Sample.request
              {| host := "203.0.113.9"; port := 51234 |} 0%nat 100 1
              {| OnRedis.arrives := 160; OnRedis.date := Sample.today; OnRedis.units := 5 |}
              (store (check_rate_limit (Sample.limiter_with 1 1000) Sample.request 5
                        Sample.today (Redis.at_time 100 Redis.empty))))
    as [Hw _].
  - reflexivity.
  - reflexivity.
  - reflexivity.
  - vm_compute. reflexivity.
  - cbn. lia.
  - vm_compute. reflexivity.
  - split; [exact Hw|]. vm_compute. reflexivity.
Defined.



(** X6: a minute counter that has no expiry and stands at the ceiling or
    above never lets the address through again: every later request, at
    whatever time, is turned away by the minute check. *)
Theorem counter_without_expiry_denies_forever
    (self : RateLimiter) (request : Request) (a : Address) (h : Handle)
    (j : Z) (xs : list OnRedis.Arrival) (s : Redis.Server) :
  enabled self = true → redis self = Some h →
  client request = Some a → is_whitelisted self (identity a) = false →
  1 ≤ j → requests_per_minute self ≤ j →
  Redis.keys s !! minute_key (identity a)
  = Some {| Redis.value := j; Redis.expires_at := None |} →
  fst (OnRedis.serve self request xs s)
  = replicate (length xs) (Raise minute_limit_exceeded).
Proof.
  intros E R C W H1 HN Hk.
  assert (Hinv : ∃ j', j ≤ j'
                   ∧ Redis.keys s !! minute_key (identity a)
                     = Some {| Redis.value := j'; Redis.expires_at := None |})
    by (exists j; split; [lia|exact Hk]).
  clear Hk. revert s Hinv.
  induction xs as [|x xs IH]; intros s (j' & Hle & Hk); [reflexivity|].
  cbn [OnRedis.serve length replicate].
  destruct (no_expiry_step self request a h E R C W x j j' s H1 HN Hle Hk)
    as (Ho & Hk').
  assert (Hle' : j ≤ j' + 1) by lia.
  specialize (IH _ (ex_intro _ (j' + 1) (conj Hle' Hk'))).
  destruct (OnRedis.serve self request xs _) as [outs s']. cbn [fst] in *.
  now rewrite Ho, IH.
Qed.

Lemma counter_without_expiry_denies_forever_witness :
  let s := {| Redis.keys :=
                {[ minute_key "203.0.113.9"
                   := {| Redis.value := 5; Redis.expires_at := None |} ]};
              Redis.clock := 0 |} in
  fst (OnRedis.serve Sample.limiter Sample.request
         [ {| OnRedis.arrives := 10; OnRedis.date := Sample.today; OnRedis.units := 1 |};
           {| OnRedis.arrives := 1000000; OnRedis.date := Sample.today; OnRedis.units := 1 |} ]
         s)
  = [Raise minute_limit_exceeded; Raise minute_limit_exceeded].
Proof.
  cbv zeta.
  apply (counter_without_expiry_denies_forever Sample.limiter Sample.request
           {| host := "203.0.113.9"; port := 51234 |} 0%nat 5).
  - reflexivity.
  - reflexivity.
  - reflexivity.
  - vm_compute. reflexivity.
  - lia.
  - cbn. lia.
  - vm_compute. reflexivity.
Defined.

(** X7: when the [EXPIRE] that follows the first increment of a minute
    counter fails, the request is let through, the day counter is not
    touched, and the store is left with a minute counter at 1 that has no
    expiry. *)
Theorem failed_first_expire_leaves_no_expiry
    (self : RateLimiter) (request : Request) (a : Address) (h : Handle)
    (text_length : Z) (today : string) (rest : list bool) (s0 : Redis.Server) :
  enabled self = true → redis self = Some h →
  client request = Some a → is_whitelisted self (identity a) = false →
  Redis.keys s0 !! minute_key (identity a) = None →
  let r := check_rate_limit self request text_length today
             {| Flaky.script := false :: true :: rest; Flaky.inner := s0 |} in
  outcome r = Return true
  ∧ command <$> issued r
    = [Incr (minute_key (identity a)); Expire (minute_key (identity a)) 60]
  ∧ Flaky.script (store r) = rest
  ∧ Redis.keys (Flaky.inner (store r)) !! minute_key (identity a)
    = Some {| Redis.value := 1; Redis.expires_at := None |}
  ∧ ∀ date, Redis.keys (Flaky.inner (store r)) !! day_key (identity a) date
            = Redis.keys s0 !! day_key (identity a) date.
Proof.
  intros E R C W Hk. cbv zeta.
  rewrite (check_guarded self request text_length today _ h a E R C W).
  cbn [outcome store issued].
  assert (G : Redis.get (minute_key (identity a)) s0 = None)
    by (unfold Redis.get; now rewrite Hk).
  open_monad. cbn [incr expire Flaky.flaky_ops].
  unfold Flaky.command. cbn [Flaky.script Flaky.inner].
  unfold Redis.INCRBY. rewrite G. cbn.
  split; [reflexivity|]. split; [reflexivity|]. split; [reflexivity|].
  split; [apply lookup_insert_eq|].
  intros date. apply lookup_insert_ne, minute_key_not_day_key.
Qed.

Lemma failed_first_expire_leaves_no_expiry_witness :
  let r := check_rate_limit Sample.limiter Sample.request 50 Sample.today
             {| Flaky.script := [false; true]; Flaky.inner := Redis.empty |} in
  outcome r = Return true
  ∧ Redis.keys (Flaky.inner (store r)) !! minute_key "203.0.113.9"
    = Some {| Redis.value := 1; Redis.expires_at := None |}.
Proof.
  cbv zeta.
  destruct (failed_first_expire_leaves_no_expiry Sample.limiter Sample.request
              {| host := "203.0.113.9"; port := 51234 |} 0%nat 50 Sample.today []
              Redis.empty eq_refl eq_refl eq_refl)
    as (Ho & _ & _ & Hk & _).
  - vm_compute. reflexivity.
  - reflexivity.
  - split; [exact Ho|exact Hk].
Defined.

(** X8: a call leaves the counters of every other address as they were: the
    minute counter of any other address, and its day counter for any date
    written at the length of today's. *)
Theorem other_addresses_untouched
    (self : RateLimiter) (request : Request) (text_length : Z) (today : string)
    (s : Redis.Server) (other : string) :
  (∀ a, client request = Some a → identity a ≠ other) →
  let r := check_rate_limit self request text_length today s in
  Redis.keys (store r) !! minute_key other = Redis.keys s !! minute_key other
  ∧ ∀ date, String.length date = String.length today →
      Redis.keys (store r) !! day_key other date = Redis.keys s !! day_key other date.
Proof.
  intros Hother. cbv zeta.
  destruct (check_rate_limit_path self request text_length today s)
    as [E|E R|h E R C|h a E R C W|h a E R C W g]; cbn [store];
    try (split; [reflexivity|intros; reflexivity]).
  specialize (Hother a C).
  destruct (OnRedisFacts.check_run self request a h text_length today s E R C W)
    as [_ Hs].
  rewrite (check_guarded self request text_length today s h a E R C W) in Hs.
  cbn [store] in Hs. fold g in Hs. rewrite Hs. clear Hs.
  assert (Hm : minute_key (identity a) ≠ minute_key other)
    by (intros Eq%KeyFacts.minute_key_inj; contradiction).
  unfold OnRedis.served. destruct (_ >? requests_per_minute self).
  - split.
    + now apply OnRedisFacts.keys_touch_other.
    + intros date _. apply OnRedisFacts.keys_touch_other, minute_key_not_day_key.
  - split.
    + rewrite OnRedisFacts.keys_touch_other
        by (intros Eq; symmetry in Eq; now apply minute_key_not_day_key in Eq).
      now apply OnRedisFacts.keys_touch_other.
    + intros date Hlen. rewrite OnRedisFacts.keys_touch_other.
      * apply OnRedisFacts.keys_touch_other, minute_key_not_day_key.
      * intros Eq. apply KeyFacts.day_key_inj in Eq as [Eq _]; [contradiction|].
        now symmetry.
Qed.

Lemma other_addresses_untouched_witness :
  let s1 := store (check_rate_limit Sample.limiter
                     {| client := Some {| host := "198.51.100.4"; port := 40000 |} |}
                     70 Sample.today Redis.empty) in
  let r := check_rate_limit Sample.limiter Sample.request 50 Sample.today s1 in
  Redis.keys (store r) !! day_key "198.51.100.4" Sample.today
  = Redis.keys s1 !! day_key "198.51.100.4" Sample.today.
Proof.
  cbv zeta.
  apply (other_addresses_untouched Sample.limiter Sample.request 50 Sample.today
           _ "198.51.100.4").
  - intros a [= <-]. vm_compute. discriminate.
  - reflexivity.
Defined.

(** X9: a request whose client host is the empty string is counted under
    the name ["unknown"], as a request from a host of that name would be:
    same outcome, same commands, same store; it only logs the warning of
    the missing address first. All such requests share one quota. *)
Theorem empty_host_counted_as_unknown
    {S : Type} `{RedisClient S} (self : RateLimiter) (h : Handle)
    (port port' text_length : Z) (today : string) (s : S) :
  enabled self = true → redis self = Some h →
  let r0 := check_rate_limit self
              {| client := Some {| host := ""; port := port |} |}
              text_length today s in
  let r1 := check_rate_limit self
              {| client := Some {| host := "unknown"; port := port' |} |}
              text_length today s in
  outcome r0 = outcome r1 ∧ store r0 = store r1 ∧ issued r0 = issued r1
  ∧ logged r0 = warn_no_client_ip :: logged r1.
Proof.
  intros E R. cbv zeta.
  set (a0 := {| host := ""; port := port |}).
  set (a1 := {| host := "unknown"; port := port' |}).
  destruct (is_whitelisted self "unknown") eqn:W.
  - rewrite (check_whitelisted self {| client := Some a0 |} text_length today s h a0),
            (check_whitelisted self {| client := Some a1 |} text_length today s h a1)
      by (try reflexivity; assumption).
    repeat split.
  - rewrite (check_guarded self {| client := Some a0 |} text_length today s h a0),
            (check_guarded self {| client := Some a1 |} text_length today s h a1)
      by (try reflexivity; assumption).
    repeat split.
Qed.

Lemma empty_host_counted_as_unknown_witness :
  let r0 := check_rate_limit Sample.limiter
              {| client := Some {| host := ""; port := 1 |} |} 50 Sample.today
              Redis.empty in
  command <$> issued r0
  = [Incr (minute_key "unknown"); Expire (minute_key "unknown") 60;
     IncrBy (day_key "unknown" Sample.today) 50;
     Expire (day_key "unknown" Sample.today) (25 * 3600)]
  ∧ logged r0 = [warn_no_client_ip; debug_counts "unknown" 1 50].
Proof.
  cbv zeta.
  destruct (empty_host_counted_as_unknown Sample.limiter 0%nat 1 2 50 Sample.today
              Redis.empty eq_refl eq_refl) as (_ & _ & Hi & Hl).
  rewrite Hi, Hl. split; vm_compute; reflexivity.
Defined.

(** ** The connection manager, beyond the claims *)

Module ProcessFacts.
Import Process.

(** What [get_client] returns is what it keeps. *)
Lemma get_client_kept net p :
  fst (get_client net p) = _redis_client (snd (get_client net p)).
Proof.
  unfold get_client. destruct (_redis_client p) eqn:Hc; cbn [fst snd];
    [now rewrite Hc|].
  destruct (constructs net), (answers_ping net); reflexivity.
Qed.

Lemma get_client_limiter net p :
  _rate_limiter (snd (get_client net p)) = _rate_limiter p.
Proof.
  unfold get_client. destruct (_redis_client p); [reflexivity|].
  destruct (constructs net), (answers_ping net); reflexivity.
Qed.

Lemma open_clients_app l1 l2 acc :
  Service.open_clients (l1 ++ l2) acc
  = Service.open_clients l2 (Service.open_clients l1 acc).
Proof.
  revert acc. induction l1 as [|[h|h [|]|h] l1 IH]; intros acc; cbn;
    [reflexivity|apply IH..].
Qed.

Lemma well_formed_get_client net p :
  Service.well_formed p → Service.well_formed (snd (get_client net p)).
Proof.
  intros Hw. pose proof Hw as [Hb Ho]. unfold get_client.
  destruct (_redis_client p) as [h|] eqn:Hc; cbn [snd]; [exact Hw|].
  cbn [option_list] in Ho.
  destruct (constructs net); [destruct (answers_ping net)|]; cbn [snd];
    split; cbn [_redis_client built events option_list].
  - intros ? [= <-]. lia.
  - rewrite open_clients_app, Ho. reflexivity.
  - discriminate.
  - rewrite open_clients_app, Ho. reflexivity.
  - discriminate.
  - exact Ho.
Qed.

Lemma well_formed_close closes p :
  Service.well_formed p → Service.well_formed (snd (Main.manager_close closes p)).
Proof.
  intros Hw. pose proof Hw as [Hb Ho]. unfold Main.manager_close, close.
  destruct (_redis_client p) as [h|] eqn:Hc; cbn [snd]; [|exact Hw].
  destruct closes; cbn [snd]; [|exact Hw].
  cbn [option_list] in Ho.
  split; cbn [_redis_client built events option_list]; [discriminate|].
  rewrite open_clients_app, Ho. cbn [Service.open_clients].
  change (option_list (Some h)) with [h].
  change (option_list (@None Handle)) with (@nil Handle).
  rewrite filter_cons. destruct (decide (h ≠ h)) as [Hne|_]; [now destruct Hne|].
  reflexivity.
Qed.

Lemma well_formed_record_ping h answered p :
  _redis_client p = Some h → Service.well_formed p →
  Service.well_formed (Main.record_ping h answered p).
Proof.
  intros Hc [Hb Ho]. split; [exact Hb|].
  cbn [Main.record_ping events _redis_client]. rewrite open_clients_app, Ho, Hc.
  destruct answered; cbn; [|reflexivity].
  rewrite bool_decide_eq_true_2 by apply list_elem_of_here. reflexivity.
Qed.

Lemma well_formed_get_rate_limiter settings net p :
  Service.well_formed p → Service.well_formed (snd (get_rate_limiter settings net p)).
Proof.
  intros Hw. unfold get_rate_limiter, get_redis.
  destruct (_rate_limiter p); [exact Hw|].
  pose proof (well_formed_get_client net p Hw) as Hw'.
  destruct (get_client net p) as [c p1]. exact Hw'.
Qed.

Lemma well_formed_health_check env p :
  Service.well_formed p → Service.well_formed (snd (fst (Main.health_check env p))).
Proof.
  intros Hw. unfold Main.health_check.
  pose proof (well_formed_get_client (Main.health_net env) p Hw) as Hw'.
  pose proof (get_client_kept (Main.health_net env) p) as Hk.
  destruct (get_client (Main.health_net env) p) as [[h|] p1]; cbn [fst snd] in *.
  - destruct (Main.health_ping env), (Main.tts_imports env); cbn [fst snd];
      now apply well_formed_record_ping.
  - destruct (Main.tts_imports env); exact Hw'.
Qed.

Lemma well_formed_step p o : Service.well_formed p → Service.well_formed (Service.step p o).
Proof.
  intros Hw. destruct o as [net|closes|settings net|env|settings net]; cbn [Service.step].
  - now apply well_formed_get_client.
  - now apply well_formed_close.
  - now apply well_formed_get_rate_limiter.
  - now apply well_formed_health_check.
  - unfold Main.rate_limit_info.
    pose proof (well_formed_get_rate_limiter settings net p Hw) as Hw'.
    destruct (get_rate_limiter settings net p) as [rl p1]. exact Hw'.
Qed.

Lemma well_formed_run ops p : Service.well_formed p → Service.well_formed (Service.run ops p).
Proof.
  revert p. induction ops as [|o ops IH]; intros p Hw; [exact Hw|].
  cbn [Service.run foldl]. apply IH. now apply well_formed_step.
Qed.

Lemma well_formed_initial : Service.well_formed initial.
Proof. split; [discriminate|reflexivity]. Qed.

End ProcessFacts.

(** X10: whatever the process does, in whatever order and against whatever
    network (acquiring, closing, building the limiter, health checks, info
    requests), the clients that answered a ping and were not closed since
    are at most one, the one the manager keeps. *)
Theorem at_most_one_open_client (ops : list Service.Op) :
  let p := Service.run ops Process.initial in
  Service.open_clients (Process.events p) [] = option_list (Process._redis_client p).
Proof.
  cbv zeta.
  apply (ProcessFacts.well_formed_run ops Process.initial
           ProcessFacts.well_formed_initial).
Qed.

(** X11: closing the connection and acquiring it again builds a client
    that was never handed out before: the manager logs the close of the
    old client, constructs the next one and pings it once. *)
Theorem reacquire_after_close_builds_new_client
    (ops : list Service.Op) (net : Process.Network) (h : Handle) :
  let p := Service.run ops Process.initial in
  Process._redis_client p = Some h →
  Process.constructs net = true → Process.answers_ping net = true →
  let q := snd (Process.get_client net (Process.close p)) in
  fst (Process.get_client net (Process.close p)) = Some (Process.built p)
  ∧ Process.built p ≠ h
  ∧ Process.events q
    = Process.events p
      ++ [Process.Closed h; Process.Constructed (Process.built p);
          Process.Pinged (Process.built p) true].
Proof.
  cbv zeta. intros Hc Hk Ha.
  destruct (ProcessFacts.well_formed_run ops Process.initial
              ProcessFacts.well_formed_initial) as [Hb _].
  specialize (Hb h Hc).
  unfold Process.close. rewrite Hc. unfold Process.get_client.
  cbn [Process._redis_client Process.built Process.events]. rewrite Hk, Ha.
  cbn [fst snd Process.events]. split; [reflexivity|]. split; [lia|].
  now rewrite <- app_assoc.
Qed.

Lemma reacquire_after_close_builds_new_client_witness :
  let p := Service.run [Service.GetClient Process.reachable] Process.initial in
  fst (Process.get_client Process.reachable (Process.close p)) = Some 1%nat
  ∧ Process.events (snd (Process.get_client Process.reachable (Process.close p)))
    = [Process.Constructed 0%nat; Process.Pinged 0%nat true; Process.Closed 0%nat;
       Process.Constructed 1%nat; Process.Pinged 1%nat true].
Proof.
  cbv zeta.
  destruct (reacquire_after_close_builds_new_client
              [Service.GetClient Process.reachable] Process.reachable 0%nat
              eq_refl eq_refl eq_refl) as (Hf & _ & He).
  split; [exact Hf|exact He].
Defined.



(** X13: [close] releases once: after it the manager has no client, a
    second [close] does nothing (no event, no log line); and when closing
    the client raises, the manager still keeps that client and the next
    [get_client] hands it out again without a ping. *)
Theorem close_releases_once (p : Process.State) (net : Process.Network) :
  Process._redis_client (Process.close p) = None
  ∧ Process.close (Process.close p) = Process.close p
  ∧ Process.get_client net (snd (Main.manager_close false p))
    = match Process._redis_client p with
      | Some h => (Some h, p)
      | None => Process.get_client net p
      end.
Proof.
  unfold Main.manager_close, Process.close.
  destruct (Process._redis_client p) as [h|] eqn:Hc; cbn [snd].
  - split; [reflexivity|]. split; [reflexivity|].
    unfold Process.get_client. now rewrite Hc.
  - rewrite Hc. repeat split.
Qed.

(** ** [main.py] *)

(** X14: the health check reports the store as [not_available] exactly
    when no client could be acquired, and that alone never lowers the
    status: the status is [healthy] exactly when the TTS import went
    through and the store entry is not [error], [unhealthy] exactly when
    the import failed. Both entries are always present. *)
Theorem health_status_table (env : Main.HealthEnv) (p : Process.State) :
  let hs := fst (fst (Main.health_check env p)) in
  (Main.services hs !! "redis" = Some "not_available"
   ↔ fst (Process.get_client (Main.health_net env) p) = None)
  ∧ (Main.status hs = "healthy"
     ↔ Main.tts_imports env = true ∧ Main.services hs !! "redis" ≠ Some "error")
  ∧ (Main.status hs = "unhealthy" ↔ Main.tts_imports env = false)
  ∧ is_Some (Main.services hs !! "redis") ∧ is_Some (Main.services hs !! "tts").
Proof.
  cbv zeta. unfold Main.health_check.
  destruct (Process.get_client (Main.health_net env) p) as [[h|] p1];
    destruct (Main.health_ping env), (Main.tts_imports env);
    cbn [fst snd Main.status Main.services];
    rewrite ?lookup_insert_eq, ?(lookup_insert_ne _ "tts" "redis") by discriminate;
    rewrite ?lookup_insert_eq;
    intuition (try discriminate; try congruence; eauto).
Qed.

(** X15: once the limiter was built without a client, a health check that
    finds the store back reconnects the manager and reports [connected],
    while the limiter is left as it is: [rate_limit_info] goes on
    reporting [redis_available = False], without any attempt to connect. *)
Theorem health_reconnects_limiter_does_not
    (settings : Settings) (env : Main.HealthEnv) (net : Process.Network)
    (p : Process.State) (limiter : RateLimiter) :
  Process._rate_limiter p = Some limiter → redis limiter = None →
  Process._redis_client p = None →
  Process.constructs (Main.health_net env) = true →
  Process.answers_ping (Main.health_net env) = true →
  Main.health_ping env = true →
  let '(hs, p1, _) := Main.health_check env p in
  let '(info, p2) := Main.rate_limit_info settings net p1 in
  Main.services hs !! "redis" = Some "connected"
  ∧ Process._redis_client p1 = Some (Process.built p)
  ∧ Main.info_redis_available info = false
  ∧ p2 = p1.
Proof.
  intros Hl Hr Hc Hk Ha Hp.
  unfold Main.health_check, Process.get_client. rewrite Hc, Hk, Ha, Hp.
  destruct (Main.tts_imports env);
    unfold Main.rate_limit_info, Process.get_rate_limiter;
    cbn [Main.record_ping Process._rate_limiter]; rewrite Hl;
    cbn [Main.services Main.info_redis_available Process._redis_client];
    rewrite Hr; repeat split.
Qed.

Lemma health_reconnects_limiter_does_not_witness :
  let p := snd (Process.get_rate_limiter Sample.settings Process.unreachable
                  Process.initial) in
  let env := {| Main.health_net := Process.reachable; Main.health_ping := true;
                Main.tts_imports := true |} in
  let '(hs, p1, _) := Main.health_check env p in
  let '(info, p2) := Main.rate_limit_info Sample.settings Process.reachable p1 in
  Main.services hs !! "redis" = Some "connected"
  ∧ Process._redis_client p1 = Some 1%nat
  ∧ Main.info_redis_available info = false
  ∧ p2 = p1.
Proof.
  cbv zeta.
  apply (health_reconnects_limiter_does_not Sample.settings
           {| Main.health_net := Process.reachable; Main.health_ping := true;
              Main.tts_imports := true |}
           Process.reachable
           (snd (Process.get_rate_limiter Sample.settings Process.unreachable
                   Process.initial))
           (RateLimiter_init Sample.settings None));
    reflexivity.
Defined.

(** X16: a start of a process that has no limiter yet leaves, once it is
    past the imports and the first cleanup, a limiter whose client is the
    very client the manager keeps (or none when the manager has none),
    whatever the network did in between and whether or not the model then
    loads; the application runs exactly when the model loaded. *)
Theorem startup_limiter_shares_managers_client
    (settings : Settings) (env : Main.StartEnv) (p : Process.State) :
  Process._rate_limiter p = None →
  Main.before_redis_raises env = false →
  let '(running, p', _) := Main.startup settings env p in
  running = negb (Main.model_raises env)
  ∧ ∃ limiter, Process._rate_limiter p' = Some limiter
               ∧ redis limiter = Process._redis_client p'
               ∧ limiter = RateLimiter_init settings (Process._redis_client p').
Proof.
  intros Hl Hb. unfold Main.startup. rewrite Hb.
  pose proof (ProcessFacts.get_client_limiter (Main.start_net env) p) as Hl1.
  destruct (Process.get_client (Main.start_net env) p) as [c p1]. cbn [snd] in Hl1.
  assert (Hgen : ∀ p2, Process._rate_limiter p2 = None →
            let '(limiter, p3) := Process.get_rate_limiter settings
                                    (Main.limiter_net env) p2 in
            Process._rate_limiter p3 = Some limiter
            ∧ redis limiter = Process._redis_client p3
            ∧ limiter = RateLimiter_init settings (Process._redis_client p3)).
  { intros p2 H2. unfold Process.get_rate_limiter, Process.get_redis. rewrite H2.
    pose proof (ProcessFacts.get_client_kept (Main.limiter_net env) p2) as Hk.
    destruct (Process.get_client (Main.limiter_net env) p2) as [c2 p3].
    cbn [fst snd] in Hk. subst c2. repeat split. }
  destruct c as [h|]; [destruct (Main.start_ping env)|];
    match goal with
    | |- context [Process.get_rate_limiter settings (Main.limiter_net env) ?p2] =>
        specialize (Hgen p2);
        destruct (Process.get_rate_limiter settings (Main.limiter_net env) p2)
          as [limiter p3]
    end;
    (destruct (Main.model_raises env); cbn [negb];
     (split; [reflexivity|]); exists limiter; apply Hgen;
     cbn [Main.record_ping Process._rate_limiter]; now rewrite Hl1).
Qed.

Lemma startup_limiter_shares_managers_client_witness :
  let env := {| Main.before_redis_raises := false;
                Main.start_net := Process.unreachable; Main.start_ping := true;
                Main.limiter_net := Process.reachable;
                Main.model_raises := false |} in
  let '(running, p', _) := Main.startup Sample.settings env Process.initial in
  running = true
  ∧ ∃ limiter, Process._rate_limiter p' = Some limiter
               ∧ redis limiter = Process._redis_client p'
               ∧ limiter = RateLimiter_init Sample.settings (Process._redis_client p').
Proof.
  cbv zeta.
  apply (startup_limiter_shares_managers_client Sample.settings
           {| Main.before_redis_raises := false;
              Main.start_net := Process.unreachable; Main.start_ping := true;
              Main.limiter_net := Process.reachable;
              Main.model_raises := false |}
           Process.initial); reflexivity.
Defined.

(** X17: a start with the store down tries to connect twice, once for
    [lifespan] itself and once for the limiter, and goes on without a
    client; a start with the store up constructs one client and pings it
    twice, the second ping being the one [lifespan] sends itself. *)
Theorem startup_connection_attempts
    (settings : Settings) (env : Main.StartEnv) (p : Process.State) :
  Process._redis_client p = None → Process._rate_limiter p = None →
  Main.before_redis_raises env = false →
  Process.constructs (Main.start_net env) = true →
  let p' := snd (fst (Main.startup settings env p)) in
  let b := Process.built p in
  (Process.answers_ping (Main.start_net env) = false →
   Main.limiter_net env = Process.unreachable →
   Process.events p'
   = Process.events p
     ++ [Process.Constructed b; Process.Pinged b false;
         Process.Constructed (Datatypes.S b); Process.Pinged (Datatypes.S b) false]
   ∧ Process._redis_client p' = None
   ∧ fst (fst (Main.startup settings env p)) = negb (Main.model_raises env))
  ∧ (Process.answers_ping (Main.start_net env) = true →
     Main.start_ping env = true →
     Process.events p'
     = Process.events p
       ++ [Process.Constructed b; Process.Pinged b true; Process.Pinged b true]
     ∧ Process._redis_client p' = Some b).
Proof.
  intros Hc Hl Hb Hk. cbv zeta. split.
  - intros Ha Hn.
    assert (G : Process.get_client (Main.start_net env) p
                = (None,
                   {| Process._redis_client := None;
                      Process._rate_limiter := Process._rate_limiter p;
                      Process.built := Datatypes.S (Process.built p);
                      Process.events :=
                        Process.events p
                        ++ [Process.Constructed (Process.built p);
                            Process.Pinged (Process.built p) false];
                      Process.log := Process.log p ++ [Process.error_failed_to_connect] |}))
      by (unfold Process.get_client; now rewrite Hc, Hk, Ha).
    unfold Main.startup. rewrite Hb, G, Hn.
    unfold Process.get_rate_limiter, Process.get_redis, Process.get_client.
    cbn [Process._rate_limiter Process._redis_client Process.unreachable
         Process.constructs Process.answers_ping Process.built Process.events].
    rewrite Hl.
    destruct (Main.model_raises env);
      cbn [fst snd Process.events Process._redis_client Process.built negb];
      rewrite <- app_assoc; repeat split.
  - intros Ha Hp.
    assert (G : Process.get_client (Main.start_net env) p
                = (Some (Process.built p),
                   {| Process._redis_client := Some (Process.built p);
                      Process._rate_limiter := Process._rate_limiter p;
                      Process.built := Datatypes.S (Process.built p);
                      Process.events :=
                        Process.events p
                        ++ [Process.Constructed (Process.built p);
                            Process.Pinged (Process.built p) true];
                      Process.log := Process.log p ++ [Process.info_redis_connected] |}))
      by (unfold Process.get_client; now rewrite Hc, Hk, Ha).
    unfold Main.startup. rewrite Hb, G, Hp.
    unfold Process.get_rate_limiter, Process.get_redis, Process.get_client.
    cbn [Main.record_ping Process._rate_limiter Process._redis_client
         Process.built Process.events].
    rewrite Hl.
    destruct (Main.model_raises env);
      cbn [fst snd Process.events Process._redis_client Process.built];
      rewrite <- app_assoc; repeat split.
Qed.

Lemma startup_connection_attempts_witness :
  let env := {| Main.before_redis_raises := false;
                Main.start_net := Process.unreachable; Main.start_ping := false;
                Main.limiter_net := Process.unreachable;
                Main.model_raises := false |} in
  let p' := snd (fst (Main.startup Sample.settings env Process.initial)) in
  Process.events p'
  = [Process.Constructed 0%nat; Process.Pinged 0%nat false;
     Process.Constructed 1%nat; Process.Pinged 1%nat false]
  ∧ Process._redis_client p' = None
  ∧ fst (fst (Main.startup Sample.settings env Process.initial)) = true.
Proof.
  cbv zeta.
  destruct (startup_connection_attempts Sample.settings
              {| Main.before_redis_raises := false;
                 Main.start_net := Process.unreachable; Main.start_ping := false;
                 Main.limiter_net := Process.unreachable;
                 Main.model_raises := false |}
              Process.initial eq_refl eq_refl eq_refl eq_refl) as [Hdown _].
  apply Hdown; reflexivity.
Defined.

(** X18: closing the connection does not reach the limiter. After a
    shutdown that closed the client and a new start in the same process,
    the manager keeps a new client while the limiter is the old one, still
    holding the client that was closed: the limiter is not rebuilt. *)
Theorem restart_leaves_limiter_on_closed_client
    (ops : list Service.Op) (settings : Settings) (env : Main.StartEnv)
    (cleanup_ok : bool) (h : Handle) (limiter : RateLimiter) :
  let p := Service.run ops Process.initial in
  Process._redis_client p = Some h →
  Process._rate_limiter p = Some limiter → redis limiter = Some h →
  Main.before_redis_raises env = false →
  Process.constructs (Main.start_net env) = true →
  Process.answers_ping (Main.start_net env) = true →
  let p1 := fst (Main.shutdown true cleanup_ok p) in
  let p2 := snd (fst (Main.startup settings env p1)) in
  Process._redis_client p1 = None
  ∧ Process._redis_client p2 = Some (Process.built p)
  ∧ Process._rate_limiter p2 = Some limiter
  ∧ redis limiter ≠ Process._redis_client p2
  ∧ Process.Closed h ∈ Process.events p2.
Proof.
  cbv zeta. intros Hc Hl Hr Hb Hk Ha.
  destruct (ProcessFacts.well_formed_run ops Process.initial
              ProcessFacts.well_formed_initial) as [Hbuilt _].
  specialize (Hbuilt h Hc).
  set (p := Service.run ops Process.initial) in *.
  set (p1 := {| Process._redis_client := None;
                Process._rate_limiter := Process._rate_limiter p;
                Process.built := Process.built p;
                Process.events := Process.events p ++ [Process.Closed h];
                Process.log := Process.log p ++ [Process.info_redis_closed] |}).
  assert (Hs : fst (Main.shutdown true cleanup_ok p) = p1)
    by (unfold Main.shutdown, Main.manager_close, Process.close; now rewrite Hc).
  rewrite Hs. split; [reflexivity|].
  assert (G : Process.get_client (Main.start_net env) p1
              = (Some (Process.built p),
                 {| Process._redis_client := Some (Process.built p);
                    Process._rate_limiter := Process._rate_limiter p;
                    Process.built := Datatypes.S (Process.built p);
                    Process.events :=
                      Process.events p1
                      ++ [Process.Constructed (Process.built p);
                          Process.Pinged (Process.built p) true];
                    Process.log := Process.log p1 ++ [Process.info_redis_connected] |}))
    by (unfold Process.get_client; cbn [p1 Process._redis_client]; now rewrite Hk, Ha).
  unfold Main.startup. rewrite Hb, G.
  unfold Process.get_rate_limiter.
  destruct (Main.start_ping env);
    cbn [Main.record_ping Process._rate_limiter]; rewrite Hl;
    destruct (Main.model_raises env);
    cbn [fst snd Process._redis_client Process._rate_limiter Process.events p1];
    (split; [reflexivity|]); (split; [reflexivity|]);
    (split; [rewrite Hr; intros [= Heq]; lia|]);
    set_solver.
Qed.

Lemma restart_leaves_limiter_on_closed_client_witness :
  let env := {| Main.before_redis_raises := false;
                Main.start_net := Process.reachable; Main.start_ping := true;
                Main.limiter_net := Process.reachable;
                Main.model_raises := false |} in
  let p := Service.run [Service.GetRateLimiter Sample.settings Process.reachable]
             Process.initial in
  let p2 := snd (fst (Main.startup Sample.settings env
                        (fst (Main.shutdown true true p)))) in
  Process._redis_client p2 = Some 1%nat
  ∧ Process._rate_limiter p2 = Some Sample.limiter.
Proof.
  cbv zeta.
  destruct (restart_leaves_limiter_on_closed_client
              [Service.GetRateLimiter Sample.settings Process.reachable]
              Sample.settings
              {| Main.before_redis_raises := false;
                 Main.start_net := Process.reachable; Main.start_ping := true;
                 Main.limiter_net := Process.reachable;
                 Main.model_raises := false |}
              true 0%nat Sample.limiter
              eq_refl eq_refl eq_refl eq_refl eq_refl eq_refl)
    as (_ & Hc & Hl & _).
  split; [exact Hc|exact Hl].
Defined.

(** ** Errors and outcomes of one call *)

(** X19: when a store command fails during a call, whichever it is, that
    command is the last one sent, the call returns [True], and the last
    line logged is the error with the message the command failed with;
    this for any store. *)
Theorem store_failure_lets_through
    {S : Type} `{RedisClient S} (self : RateLimiter) (request : Request)
    (text_length : Z) (today : string) (s : S) (c : Call) :
  let r := check_rate_limit self request text_length today s in
  c ∈ issued r → failed c = true →
  outcome r = Return true
  ∧ last (issued r) = Some c
  ∧ ∃ what, reply c = inl what
            ∧ last (logged r) = Some (error_redis (RedisError what)).
Proof.
  cbv zeta.
  destruct (check_rate_limit_path self request text_length today s)
    as [E|E R|h E R C|h a E R C W|h a E R C W g]; cbn [outcome issued logged];
    intros Hc Hf; try (by inversion Hc).
  destruct (guarded_failure self (identity a) text_length today s c Hc Hf)
    as (Ho & sent & what & Hi & Hr & Hl). fold g in Ho, Hi, Hl.
  split; [exact Ho|]. split; [rewrite Hi; apply last_snoc|].
  exists what. split; [exact Hr|]. rewrite Hl. apply last_snoc.
Qed.

Lemma store_failure_lets_through_witness :
  let s := {| Flaky.script := [false; false; true]; Flaky.inner := Redis.empty |} in
  let r := check_rate_limit Sample.limiter Sample.request 50 Sample.today s in
  let c := {| command := IncrBy (day_key "203.0.113.9" Sample.today) 50;
              reply := inl "Connection closed by server." |} in
  outcome r = Return true ∧ last (issued r) = Some c.
Proof.
  cbv zeta.
  destruct (store_failure_lets_through Sample.limiter Sample.request 50 Sample.today
              {| Flaky.script := [false; false; true]; Flaky.inner := Redis.empty |}
              {| command := IncrBy (day_key "203.0.113.9" Sample.today) 50;
                 reply := inl "Connection closed by server." |})
    as (Ho & Hl & _).
  - vm_compute. do 2 apply list_elem_of_further. apply list_elem_of_here.
  - reflexivity.
  - split; [exact Ho|exact Hl].
Defined.

(** X20: a call never returns [False] and never lets a store error out; it
    raises [AttributeError] exactly when the limiter is on, has a Redis
    client, and the request has no client address, and in every other case
    it returns [True] or raises one of the two 429 rejections. *)
Theorem outcomes_of_check
    {S : Type} `{RedisClient S} (self : RateLimiter) (request : Request)
    (text_length : Z) (today : string) (s : S) :
  let r := check_rate_limit self request text_length today s in
  outcome r ≠ Return false
  ∧ (∀ what, outcome r ≠ Raise (RedisError what))
  ∧ ((∃ what, outcome r = Raise (AttributeError what))
     ↔ enabled self = true ∧ redis self ≠ None ∧ client request = None)
  ∧ ((∀ what, outcome r ≠ Raise (AttributeError what)) →
     outcome r = Return true ∨ outcome r = Raise minute_limit_exceeded
     ∨ outcome r = Raise day_limit_exceeded).
Proof.
  cbv zeta. split; [apply never_returns_False|].
  split; [apply store_errors_absorbed|].
  destruct (check_rate_limit_path self request text_length today s)
    as [E|E R|h E R C|h a E R C W|h a E R C W g]; cbn [outcome].
  - split; [|auto]. split; [intros [? [=]]|intros (? & _); congruence].
  - split; [|auto]. split; [intros [? [=]]|intros (_ & ? & _); congruence].
  - split.
    + split; [intros _; repeat split; congruence|eauto].
    + intros Hn. now destruct (Hn "'NoneType' object has no attribute 'host'").
  - split; [|auto]. split; [intros [? [=]]|intros (_ & _ & ?); congruence].
  - destruct (guarded_outcomes self (identity a) text_length today s)
      as [G|[G|G]]; fold g in G; rewrite G;
      (split; [|auto]);
      (split; [intros [? [=]]|intros (_ & _ & ?); congruence]).
Qed.



(** X22: the limiter is built once in the life of the process: once
    [_rate_limiter] is set, nothing the process does afterwards (acquiring,
    closing, health checks, info requests, further [get_rate_limiter]
    calls) replaces it or changes the client it holds. *)
Theorem limiter_never_replaced
    (ops : list Service.Op) (p : Process.State) (limiter : RateLimiter) :
  Process._rate_limiter p = Some limiter →
  Process._rate_limiter (Service.run ops p) = Some limiter.
Proof.
  revert p. induction ops as [|o ops IH]; intros p Hl; [exact Hl|].
  cbn [Service.run foldl]. apply IH.
  destruct o as [net|closes|settings net|env|settings net]; cbn [Service.step].
  - now rewrite ProcessFacts.get_client_limiter.
  - unfold Main.manager_close, Process.close.
    destruct (Process._redis_client p); [destruct closes|]; exact Hl.
  - unfold Process.get_rate_limiter. now rewrite Hl.
  - unfold Main.health_check.
    pose proof (ProcessFacts.get_client_limiter (Main.health_net env) p) as Hg.
    destruct (Process.get_client (Main.health_net env) p) as [[h|] p1];
      cbn [snd] in Hg;
      destruct (Main.health_ping env), (Main.tts_imports env); cbn [fst snd];
      cbn [Main.record_ping Process._rate_limiter]; now rewrite Hg.
  - unfold Main.rate_limit_info, Process.get_rate_limiter. now rewrite Hl.
Qed.

Lemma limiter_never_replaced_witness :
  let p := snd (Process.get_rate_limiter Sample.settings Process.unreachable
                  Process.initial) in
  Process._rate_limiter
    (Service.run [Service.GetClient Process.reachable; Service.Close true;
                  Service.GetRateLimiter Sample.settings Process.reachable] p)
  = Some (RateLimiter_init Sample.settings None).
Proof.
  cbv zeta.
  apply (limiter_never_replaced
           [Service.GetClient Process.reachable; Service.Close true;
            Service.GetRateLimiter Sample.settings Process.reachable]).
  reflexivity.
Defined.
